(** * GbiasInvestigatr: a Rivet analysis writing dijet observables to a table

    Shallow embedding of [src/GbiasInvestigatr.cc].  The analysis is a class
    with three hooks called by the Rivet framework ([init], [analyze] once
    per event, [finalize]) and a private helper [print].  The class members
    become the fields of the record [State], to which the standard output
    is added; every hook is a function from states to states.

    Numbers: the C++ [double]s are embedded as exact rationals [Q], and the
    comparisons of the control flow as the boolean test [Qltb]; rounding,
    infinities and NaN are outside this model.  Where a statement depends
    on them, the selection of the two jets and the observables computed
    from them are embedded a second time in [Module Binary64], with the
    doubles as IEEE binary64 values and the operations as the standard
    library specifies them.  The counter [_eventNumber], an [int], is
    embedded as an integer of 32 bits.

    Left out: the hooks of the base class [MC_JetAnalysis], which fill
    histograms and touch none of the members below, and the debug message
    of [vetoEvent]. *)

From Stdlib Require Import QArith Qabs Lqa ZArith Lia.
From Stdlib Require Import Bool List String Ascii.
From Stdlib Require Import Sorted Permutation.
From Stdlib Require Import SpecFloat Qpower.
Import ListNotations.

Open Scope string_scope.
Open Scope list_scope.
Open Scope Q_scope.

(** ** Comparison of doubles *)

(** [a < b] on doubles, as a boolean. *)
Definition Qltb (x y : Q) : bool :=
  match x ?= y with
  | Lt => true
  | _ => false
  end.

Infix "<?" := Qltb (at level 70, no associativity) : Q_scope.

(** ** The parts of the Rivet framework the analysis calls *)

Module Rivet.

(** Modelled from the spec: Rivet's unit constant [GeV] (energies are
    stored in GeV, so the constant is one). *)
Definition GeV : Q := 1.

(** Modelled from the spec: Rivet's constant [PI], defined as the C
    macro [M_PI]; the literal below is the macro's text. *)
Definition PI : Q := 3.14159265358979323846.

(** Modelled from the spec: a reconstructed jet.  The analysis reads
    [momentum().pT()] and [momentum().phi()]; the cut reads the absolute
    pseudorapidity. *)
Record Jet : Set := mkJet { pT : Q; eta : Q; phi : Q }.

(** Modelled from the spec: the heavy-ion block of a generator event. *)
Record HeavyIon : Set :=
  mkHeavyIon { event_plane_angle : Q; eccentricity : Q }.

(** Modelled from the spec: what an [Event] exposes to this analysis:
    [genEvent()->heavy_ion()] (a null pointer becomes [None]), the jets
    clustered by the "Jets" projection, and [weights()], which Rivet
    never leaves empty ([weight0] is [weights()[0]]). *)
Record Event : Set :=
  mkEvent { heavy_ion : option HeavyIon;
            jets : list Jet;
            weight0 : Q;
            weights_tail : list Q }.

(** [Cuts::abseta < 2.0 && Cuts::pT > 20*GeV] *)
Definition cuts (j : Jet) : bool :=
  (Qabs (eta j) <? 2) && (20 * GeV <? pT j).

(** Modelled from the spec: [jetsByPt(cut)] keeps the jets that pass the
    cut and orders them by descending transverse momentum.  The order is
    built by stable insertion. *)
Fixpoint insert_by_pt (j : Jet) (l : list Jet) : list Jet :=
  match l with
  | [] => [j]
  | h :: t =>
      if Qle_bool (pT h) (pT j) then j :: h :: t
      else h :: insert_by_pt j t
  end.

Definition sort_by_pt (l : list Jet) : list Jet :=
  fold_right insert_by_pt [] l.

Definition jetsByPt (cut : Jet -> bool) (js : list Jet) : list Jet :=
  sort_by_pt (filter cut js).

(** Descending transverse momentum. *)
Definition pt_ge (a b : Jet) : Prop := pT b <= pT a.

End Rivet.

Import Rivet.

(** ** [std::map<std::string,double>] *)

(** The map keeps its entries ordered by key ([std::less<std::string>],
    the byte-wise lexicographic order) and iterates in that order.  It is
    embedded as the association list of its entries in iteration order. *)
Module StdMap.

Definition t : Set := list (string * Q).

Definition empty : t := [].

(** [m[k] = v] *)
Fixpoint set (k : string) (v : Q) (m : t) : t :=
  match m with
  | [] => [(k, v)]
  | (k', v') :: rest =>
      match String.compare k k' with
      | Lt => (k, v) :: (k', v') :: rest
      | Eq => (k, v) :: rest
      | Gt => (k', v') :: set k v rest
      end
  end.

(** [m.find(k)] *)
Fixpoint get (k : string) (m : t) : option Q :=
  match m with
  | [] => None
  | (k', v') :: rest => if String.eqb k k' then Some v' else get k rest
  end.

(** The keys, in iteration order. *)
Definition keys (m : t) : list string := List.map fst m.

(** What [set] does to the sequence of keys. *)
Fixpoint key_insert (k : string) (ks : list string) : list string :=
  match ks with
  | [] => [k]
  | k' :: rest =>
      match String.compare k k' with
      | Lt => k :: k' :: rest
      | Eq => k :: rest
      | Gt => k' :: key_insert k rest
      end
  end.

(** Keys in strictly ascending byte-wise order. *)
Definition key_lt (a b : string) : Prop := String.compare a b = Lt.

End StdMap.

(** ** Streams *)

(** What has been sent to a stream with [<<]: text, or a double (whose
    textual format is left to the stream). *)
Inductive token : Set :=
| OStr (s : string)
| ONum (x : Q).

Definition TAB : string := String "009" EmptyString.
Definition NL : string := String "010" EmptyString.

(** [std::fstream]: whether it is open, and what was written to it. *)
Record fstream : Set := mkFstream { is_open : bool; content : list token }.

(** ** The analysis class *)

(** [++n] on an [int] of 32 bits.  Overflow of a signed integer is
    undefined in C++; it is written out here as the two's-complement
    wrap-around that the usual compilers produce. *)
Definition int_incr (n : Z) : Z :=
  if (n =? 2147483647)%Z then (-2147483648)%Z else (n + 1)%Z.

Module GbiasInvestigatr.

Record State : Set :=
  mkState { _file : fstream;
            _open : bool;
            _eventNumber : Z;
            _firstPrint : bool;
            _toWrite : StdMap.t;
            cout : list string }.

Definition with_toWrite (m : StdMap.t) (s : State) : State :=
  mkState (_file s) (_open s) (_eventNumber s) (_firstPrint s) m (cout s).

Definition with_file (f : fstream) (s : State) : State :=
  mkState f (_open s) (_eventNumber s) (_firstPrint s) (_toWrite s) (cout s).

(** [_toWrite[k] = v] *)
Definition store (k : string) (v : Q) (s : State) : State :=
  with_toWrite (StdMap.set k v (_toWrite s)) s.

(** [_file << ...] for a sequence of items, on an open stream. *)
Definition write (ts : list token) (s : State) : State :=
  with_file (mkFstream (is_open (_file s)) (content (_file s) ++ ts)) s.

Definition WARNING : string := "[WARNING] Could not open file.".

(** The path that [init] opens: the word read from [std::cin], replaced
    by the default when it is an [e] followed by a newline. *)
Definition file_name (typed : string) : string :=
  if String.eqb typed ("e" ++ NL)%string then "eventdata.dat" else typed.

(** [init()].  [can_open] tells for which paths [_file.open] succeeds,
    [typed] is the word read from [std::cin]. *)
Definition init (can_open : string -> bool) (typed : string) : State :=
  let out := [NL; NL; "Out file name: "; NL] in
  if can_open (file_name typed) then
    mkState (mkFstream true []) true 0%Z true StdMap.empty out
  else
    mkState (mkFstream false []) false 0%Z true StdMap.empty
            (out ++ [WARNING; NL]).

(** The row of variable names written by [print(true)]. *)
Definition header_row (m : StdMap.t) : list token :=
  flat_map (fun it => [OStr (fst it); OStr TAB]) m ++ [OStr NL].

(** The row of values written by [print()]. *)
Definition data_row (m : StdMap.t) : list token :=
  flat_map (fun it => [ONum (snd it); OStr TAB]) m ++ [OStr NL].

(** [print(var)] *)
Definition print (var : bool) (s : State) : State :=
  if negb (is_open (_file s)) then s
  else if var then write (header_row (_toWrite s)) s
  else write (data_row (_toWrite s)) s.

(** The test of the loop over the jets:
    [fabs(fabs(j1.phi() - j.phi()) - PI) < PI/8.] *)
Definition back_to_back (j1 j : Jet) : bool :=
  let ang := Qabs (phi j1 - phi j) in
  Qabs (ang - PI) <? PI / 8.

(** The selection of the two jets (the body of [if(jetlist.size() > 1)]
    and its [else]); [None] stands for [vetoEvent], which returns from
    [analyze]. *)
Definition select_dijet (jetlist : list Jet) : option (Jet * Jet) :=
  match jetlist with
  | j1 :: _ :: _ =>
      if pT j1 <? 80 * GeV then None
      else
        match find (back_to_back j1) jetlist with
        | Some j2 => Some (j1, j2)
        | None => None
        end
  | _ => None
  end.

(** The first statements of [analyze]: the H line of the event. *)
Definition read_heavy_ion (event : Event) (s : State) : State :=
  match heavy_ion event with
  | Some hion =>
      store "JProdR" (eccentricity hion)
            (store "Polar" (event_plane_angle hion) s)
  | None => s
  end.

(** The stores made for an accepted pair of jets. *)
Definition store_dijet (j1 j2 : Jet) (s : State) : State :=
  let s := store "Jet1_pT" (pT j1) s in
  let s := store "Jet2_pT" (pT j2) s in
  let s := store "JetAngle" (Qabs (phi j1 - phi j2) * 180 / PI) s in
  let s := store "Jet1_Ang" (phi j1) s in
  let E1 := pT j1 in
  let E2 := pT j2 in
  let Aj := (E1 - E2) / (E1 + E2) in
  store "Aj" Aj s.

(** The end of [analyze]: header on the first print, then the row. *)
Definition write_in_file (s : State) : State :=
  let s :=
    if _firstPrint s then
      let s := print true s in
      mkState (_file s) (_open s) (_eventNumber s) false (_toWrite s)
              (cout s)
    else s in
  let s :=
    mkState (_file s) (_open s) (int_incr (_eventNumber s)) (_firstPrint s)
            (_toWrite s) (cout s) in
  print false s.

(** [analyze(event)] *)
Definition analyze (event : Event) (s : State) : State :=
  let s := read_heavy_ion event s in
  let jetlist := jetsByPt cuts (jets event) in
  match select_dijet jetlist with
  | None => s
  | Some (j1, j2) =>
      let s := store_dijet j1 j2 s in
      let s := store "Weight" (weight0 event) s in
      write_in_file s
  end.

(** [finalize()] *)
Definition finalize (s : State) : State :=
  if _open s then
    mkState (mkFstream false (content (_file s))) (_open s)
            (_eventNumber s) (_firstPrint s) (_toWrite s)
            (cout s ++ ["Everything written to file."; NL])
  else s.

(** The framework calls [analyze] once per event, in order. *)
Definition analyze_all (events : list Event) (s : State) : State :=
  fold_left (fun st ev => analyze ev st) events s.

(** A whole run. *)
Definition run (can_open : string -> bool) (typed : string)
           (events : list Event) : State :=
  finalize (analyze_all events (init can_open typed)).

(** An event is accepted when [analyze] reaches its end. *)
Definition accepts (event : Event) : bool :=
  match select_dijet (jetsByPt cuts (jets event)) with
  | Some _ => true
  | None => false
  end.

(** The contents of [_toWrite] at each [print()] of a sequence of
    events, oldest first. *)
Fixpoint printed_records (events : list Event) (s : State)
  : list StdMap.t :=
  match events with
  | [] => []
  | ev :: rest =>
      let s' := analyze ev s in
      if accepts ev then _toWrite s' :: printed_records rest s'
      else printed_records rest s'
  end.

End GbiasInvestigatr.

Import GbiasInvestigatr.

(** ** Field names *)

(** The columns of a record that has never seen heavy-ion metadata, and
    of one that has, in the iteration order of the map. *)
Definition FIELDS_JETS : list string :=
  ["Aj"; "Jet1_Ang"; "Jet1_pT"; "Jet2_pT"; "JetAngle"; "Weight"].

Definition FIELDS_ALL : list string :=
  ["Aj"; "JProdR"; "Jet1_Ang"; "Jet1_pT"; "Jet2_pT"; "JetAngle"; "Polar";
   "Weight"].

Definition FIELDS_HION : list string := ["JProdR"; "Polar"].

(** The order in which [analyze] first assigns the fields. *)
Definition FIELDS_INSERTION : list string :=
  ["Polar"; "JProdR"; "Jet1_pT"; "Jet2_pT"; "JetAngle"; "Jet1_Ang"; "Aj";
   "Weight"].

(** The key sequences [_toWrite] can have during a run. *)
Definition keys_ok (ks : list string) : Prop :=
  ks = [] \/ ks = FIELDS_HION \/ ks = FIELDS_JETS \/ ks = FIELDS_ALL.

(** A token of a row of values: a number, a tab or the end of line. *)
Definition value_token (t : token) : Prop :=
  match t with
  | ONum _ => True
  | OStr s => s = TAB \/ s = NL
  end.

(** The table made of the records [ms]: the row of names of the first
    one when [first] holds, then one row of values for each. *)
Definition table (first : bool) (ms : list StdMap.t) : list token :=
  match ms with
  | [] => []
  | m0 :: _ =>
      (if first then header_row m0 else []) ++ List.concat (List.map data_row ms)
  end.

(** The record [m] holds a value equal to [x] under the key [k]. *)
Definition has_value (m : StdMap.t) (k : string) (x : Q) : Prop :=
  exists v, StdMap.get k m = Some v /\ v == x.

(** [hion] is not null. *)
Definition has_hion (ev : Event) : bool :=
  match heavy_ion ev with
  | Some _ => true
  | None => false
  end.

(** [_toWrite] has the key Polar. *)
Definition has_polar (s : State) : bool :=
  existsb (String.eqb "Polar") (StdMap.keys (_toWrite s)).

(** The columns of the records printed for a sequence of events; [seen]
    tells whether [_toWrite] already has the heavy-ion fields. *)
Fixpoint printed_keys (events : list Event) (seen : bool)
  : list (list string) :=
  match events with
  | [] => []
  | ev :: rest =>
      let seen' := has_hion ev || seen in
      if accepts ev
      then (if seen' then FIELDS_ALL else FIELDS_JETS)
             :: printed_keys rest seen'
      else printed_keys rest seen'
  end.

(** ** Sample inputs *)

Module Samples.

Definition always_open (_ : string) : bool := true.
Definition never_open (_ : string) : bool := false.

(** A leading jet of 100 GeV at phi = 0 and a jet of 60 GeV at phi = PI. *)
Definition jet_lead : Jet := mkJet 100 0 0.
Definition jet_away : Jet := mkJet 60 0 PI.

Definition ev_dijet : Event :=
  mkEvent (Some (mkHeavyIon 1 2)) [jet_lead; jet_away] 1 [].

Definition ev_dijet_plain : Event :=
  mkEvent None [jet_lead; jet_away] 1 [].

(** Heavy-ion metadata but no jet at all. *)
Definition ev_hion_only : Event :=
  mkEvent (Some (mkHeavyIon 7 9)) [] 1 [].

(** One qualifying jet only (the second one is too soft). *)
Definition ev_single : Event :=
  mkEvent None [jet_lead; mkJet 15 0 PI] 1 [].

(** Two qualifying jets, the harder one below 80 GeV. *)
Definition ev_soft : Event :=
  mkEvent None [mkJet 60 0 PI; mkJet 70 0 0] 1 [].

(** Two qualifying jets on the same side. *)
Definition ev_same_side : Event :=
  mkEvent None [jet_lead; mkJet 60 0 1] 1 [].

(** Three jets: the second hardest is not back-to-back, the third is. *)
Definition ev_three : Event :=
  mkEvent None [mkJet 50 0 3; jet_lead; mkJet 60 0 1] 1 [].

End Samples.

Import Samples.

(** The first accepted event of a sequence, with the events before and
    after it. *)
Fixpoint first_accepted (events : list Event)
  : option (list Event * Event * list Event) :=
  match events with
  | [] => None
  | ev :: rest =>
      if accepts ev then Some ([], ev, rest)
      else
        match first_accepted rest with
        | Some (pre, e, post) => Some (ev :: pre, e, post)
        | None => None
        end
  end.

(** ** The selection in binary64 arithmetic *)

(** The same statements of [analyze] as [cuts], [back_to_back],
    [select_dijet] and the observables of [store_dijet] above, with every
    [double] an IEEE binary64 value (finite, infinite or NaN) and every
    operation rounded as the standard library specifies it. *)
Module Binary64.

Definition double : Set := spec_float.

Definition prec : Z := 53.
Definition emax : Z := 1024.

Definition add : double -> double -> double := SFadd prec emax.
Definition sub : double -> double -> double := SFsub prec emax.
Definition mul : double -> double -> double := SFmul prec emax.
Definition div : double -> double -> double := SFdiv prec emax.
Definition fabs : double -> double := SFabs.
Definition lt : double -> double -> bool := SFltb.
Definition le : double -> double -> bool := SFleb.

(** The conversion of an [int] to [double]. *)
Definition of_int (n : Z) : double := binary_normalize prec emax n 0 false.

(** Modelled from the spec: Rivet's unit constant [GeV], 1.0. *)
Definition GeV : double := of_int 1.

(** Modelled from the spec: Rivet's [PI], the double of the C macro
    [M_PI], 0x1.921fb54442d18p+1. *)
Definition PI : double := S754_finite false 7074237752028440 (-51).

(** Modelled from the spec: a reconstructed jet. *)
Record Jet : Set := mkJet { pT : double; eta : double; phi : double }.

(** [Cuts::abseta < 2.0 && Cuts::pT > 20*GeV] *)
Definition cuts (j : Jet) : bool :=
  lt (fabs (eta j)) (of_int 2) && lt (mul (of_int 20) GeV) (pT j).

(** Modelled from the spec: [jetsByPt(cut)], the jets that pass the cut
    in descending order of pT, built by stable insertion. *)
Fixpoint insert_by_pt (j : Jet) (l : list Jet) : list Jet :=
  match l with
  | [] => [j]
  | h :: t =>
      if le (pT h) (pT j) then j :: h :: t
      else h :: insert_by_pt j t
  end.

Definition sort_by_pt (l : list Jet) : list Jet :=
  fold_right insert_by_pt [] l.

Definition jetsByPt (cut : Jet -> bool) (js : list Jet) : list Jet :=
  sort_by_pt (filter cut js).

(** Descending transverse momentum. *)
Definition pt_ge (a b : Jet) : Prop := le (pT b) (pT a) = true.

(** [fabs(fabs(j1.phi() - j.phi()) - PI) < PI/8.] *)
Definition back_to_back (j1 j : Jet) : bool :=
  let ang := fabs (sub (phi j1) (phi j)) in
  lt (fabs (sub ang PI)) (div PI (of_int 8)).

(** The body of [if(jetlist.size() > 1)] and its [else]; [None] stands
    for [vetoEvent]. *)
Definition select_dijet (jetlist : list Jet) : option (Jet * Jet) :=
  match jetlist with
  | j1 :: _ :: _ =>
      if lt (pT j1) (mul (of_int 80) GeV) then None
      else
        match find (back_to_back j1) jetlist with
        | Some j2 => Some (j1, j2)
        | None => None
        end
  | _ => None
  end.

(** [fabs(j1.phi() - j2.phi())*180/PI], the value stored as JetAngle. *)
Definition JetAngle (j1 j2 : Jet) : double :=
  div (mul (fabs (sub (phi j1) (phi j2))) (of_int 180)) PI.

(** [(E1 - E2) / (E1 + E2)], the value stored as Aj. *)
Definition Aj (j1 j2 : Jet) : double :=
  let E1 := pT j1 in
  let E2 := pT j2 in
  div (sub E1 E2) (add E1 E2).


(** The exact value of a finite double. *)
Definition exact (x : double) : Q :=
  match x with
  | S754_finite s m e =>
      (if s then - inject_Z (Zpos m) else inject_Z (Zpos m)) * 2 ^ e
  | _ => 0
  end.

(** The order of the doubles other than NaN, as a lexicographic order on
    triples of integers. *)
Definition key (x : double) : Z * Z * Z :=
  match x with
  | S754_infinity true => (-2, 0, 0)
  | S754_finite true m e => (-1, - e, Zneg m)
  | S754_zero _ => (0, 0, 0)
  | S754_finite false m e => (1, e, Zpos m)
  | S754_infinity false => (2, 0, 0)
  | S754_nan => (3, 0, 0)
  end%Z.

Definition key_lt (a b : Z * Z * Z) : Prop :=
  let '(a1, a2, a3) := a in
  let '(b1, b2, b3) := b in
  (a1 < b1 \/ (a1 = b1 /\ (a2 < b2 \/ (a2 = b2 /\ a3 < b3))))%Z.

Definition key_le (a b : Z * Z * Z) : Prop :=
  let '(a1, a2, a3) := a in
  let '(b1, b2, b3) := b in
  (a1 < b1 \/ (a1 = b1 /\ (a2 < b2 \/ (a2 = b2 /\ a3 <= b3))))%Z.

(** Sample jets: the pair of the specification, a jet at the edge of the
    angular window (phi = 9*PI/8, as the doubles compute it), a jet of
    1e18 GeV, one of infinite pT and one of 21 GeV. *)
Definition jet_lead : Jet := mkJet (of_int 100) (of_int 0) (of_int 0).
Definition jet_away : Jet := mkJet (of_int 60) (of_int 0) PI.
Definition jet_edge : Jet :=
  mkJet (of_int 70) (of_int 0) (div (mul (of_int 9) PI) (of_int 8)).
Definition jet_40 : Jet := mkJet (of_int 40) (of_int 0) PI.

End Binary64.

(** ** Rounding to binary64 *)



(** ** Reading the file back *)

(** The end-of-line items of what was written. *)
Definition is_newline (t : token) : bool :=
  match t with
  | OStr s => String.eqb s NL
  | ONum _ => false
  end.

(** The number of lines in the file. *)
Definition count_lines (ts : list token) : nat :=
  List.length (filter is_newline ts).

(** The word read by [std::cin >> name] holds no white space; of the white
    space characters the newline is the one [init] looks for. *)
Definition no_newline (typed : string) : Prop :=
  ~ In "010"%char (list_ascii_of_string typed).

(** Further sample inputs: an accepted event whose jets are more than PI
    apart in azimuth, and one with two candidates for the second jet. *)
Definition ev_wide : Event :=
  mkEvent (Some (mkHeavyIon 3 4)) [mkJet 90 1 0.1; mkJet 30 (-1) 3.5] 2 [].

Definition ev_two_partners : Event :=
  mkEvent None [mkJet 40 0 3.2; mkJet 120 0 0; mkJet 70 0 3] 1 [].

(** * Properties *)

(** ** Comparisons *)

Lemma Qltb_lt (x y : Q) : (x <? y) = true <-> x < y.
Proof.
  unfold Qltb. rewrite Qlt_alt.
  destruct (x ?= y); split; intro H; congruence.
Qed.

Lemma Qltb_ge (x y : Q) : (x <? y) = false <-> y <= x.
Proof.
  rewrite <- not_true_iff_false, Qltb_lt. split.
  - apply Qnot_lt_le.
  - apply Qle_not_lt.
Qed.

Lemma GeV_one (x : Q) : x * GeV == x.
Proof. unfold GeV. ring. Qed.

Lemma PI_pos : 0 < PI.
Proof. reflexivity. Qed.

(** ** The jets returned by [jetsByPt] *)

Section JetsByPt.

Lemma insert_by_pt_perm (j : Jet) (l : list Jet) :
  Permutation (j :: l) (insert_by_pt j l).
Proof.
  induction l as [|h t IH]; simpl.
  - apply Permutation_refl.
  - destruct (Qle_bool (pT h) (pT j)).
    + apply Permutation_refl.
    + eapply perm_trans; [apply perm_swap|].
      apply perm_skip, IH.
Qed.

Lemma sort_by_pt_perm (l : list Jet) : Permutation l (sort_by_pt l).
Proof.
  induction l as [|h t IH]; simpl.
  - apply perm_nil.
  - eapply perm_trans; [apply perm_skip, IH|].
    apply insert_by_pt_perm.
Qed.

Lemma insert_by_pt_sorted (j : Jet) (l : list Jet) :
  StronglySorted pt_ge l -> StronglySorted pt_ge (insert_by_pt j l).
Proof.
  induction 1 as [|h t Hs IH Hh]; simpl.
  - repeat constructor.
  - destruct (Qle_bool (pT h) (pT j)) eqn:E.
    + apply Qle_bool_iff in E.
      constructor; [constructor; assumption|].
      constructor; [exact E|].
      rewrite Forall_forall in Hh |- *. intros x Hx.
      unfold pt_ge in *. apply Qle_trans with (pT h); auto.
    + constructor; [exact IH|].
      rewrite Forall_forall in Hh |- *. intros x Hx.
      apply (Permutation_in _ (Permutation_sym (insert_by_pt_perm j t)))
        in Hx.
      destruct Hx as [<-|Hx]; [|auto].
      unfold pt_ge. apply Qlt_le_weak, Qnot_le_lt.
      intro Hle. apply Qle_bool_iff in Hle. congruence.
Qed.

Lemma sort_by_pt_sorted (l : list Jet) : StronglySorted pt_ge (sort_by_pt l).
Proof.
  induction l as [|h t IH]; simpl.
  - constructor.
  - apply insert_by_pt_sorted, IH.
Qed.

Lemma jetsByPt_perm (c : Jet -> bool) (js : list Jet) :
  Permutation (filter c js) (jetsByPt c js).
Proof. apply sort_by_pt_perm. Qed.

Lemma jetsByPt_In (c : Jet -> bool) (js : list Jet) (j : Jet) :
  In j (jetsByPt c js) <-> In j js /\ c j = true.
Proof.
  rewrite <- filter_In. split; apply Permutation_in.
  - apply Permutation_sym, jetsByPt_perm.
  - apply jetsByPt_perm.
Qed.

Lemma jetsByPt_length (c : Jet -> bool) (js : list Jet) :
  List.length (jetsByPt c js) = List.length (filter c js).
Proof. symmetry. apply Permutation_length, jetsByPt_perm. Qed.

Lemma jetsByPt_sorted (c : Jet -> bool) (js : list Jet) :
  StronglySorted pt_ge (jetsByPt c js).
Proof. apply sort_by_pt_sorted. Qed.

(** The first jet has the largest transverse momentum. *)
Lemma jetsByPt_front (c : Jet -> bool) (js : list Jet) (j1 : Jet)
      (rest : list Jet) :
  jetsByPt c js = j1 :: rest ->
  forall j, In j (jetsByPt c js) -> pT j <= pT j1.
Proof.
  intros E j Hj. pose proof (jetsByPt_sorted c js) as Hs.
  rewrite E in Hs, Hj. inversion Hs as [|? ? _ Hall]; subst.
  destruct Hj as [<-|Hj]; [apply Qle_refl|].
  rewrite Forall_forall in Hall. apply Hall, Hj.
Qed.

Lemma cuts_spec (j : Jet) :
  cuts j = true <-> Qabs (eta j) < 2 /\ 20 < pT j.
Proof.
  unfold cuts. rewrite andb_true_iff, !Qltb_lt.
  setoid_replace (20 * GeV) with 20 by apply GeV_one. reflexivity.
Qed.

End JetsByPt.

(** ** The map [_toWrite] *)

Section MapFacts.

Lemma compare_refl (k : string) : String.compare k k = Eq.
Proof.
  pose proof (String.compare_antisym k k) as H.
  destruct (String.compare k k); simpl in H; congruence.
Qed.

Lemma compare_neq_eqb (k k' : string) :
  String.compare k k' <> Eq -> String.eqb k k' = false.
Proof.
  intro H. apply String.eqb_neq. intros ->. apply H, compare_refl.
Qed.

Lemma get_set_eq (k : string) (v : Q) (m : StdMap.t) :
  StdMap.get k (StdMap.set k v m) = Some v.
Proof.
  induction m as [|[k' v'] rest IH]; simpl.
  - now rewrite String.eqb_refl.
  - destruct (String.compare k k') eqn:E; simpl.
    + now rewrite String.eqb_refl.
    + now rewrite String.eqb_refl.
    + rewrite compare_neq_eqb by congruence. exact IH.
Qed.

Lemma get_set_neq (k k' : string) (v : Q) (m : StdMap.t) :
  k <> k' -> StdMap.get k' (StdMap.set k v m) = StdMap.get k' m.
Proof.
  intro Hne.
  assert (Hkk : String.eqb k' k = false) by (apply String.eqb_neq; auto).
  induction m as [|[k0 v0] rest IH]; simpl.
  - now rewrite Hkk.
  - destruct (String.compare k k0) eqn:E; simpl.
    + apply String.compare_eq_iff in E. subst k0. now rewrite Hkk.
    + now rewrite Hkk.
    + now rewrite IH.
Qed.

Lemma keys_set (k : string) (v : Q) (m : StdMap.t) :
  StdMap.keys (StdMap.set k v m) = StdMap.key_insert k (StdMap.keys m).
Proof.
  induction m as [|[k' v'] rest IH]; simpl.
  - reflexivity.
  - destruct (String.compare k k'); simpl; try reflexivity.
    f_equal. exact IH.
Qed.

Lemma key_insert_In (k x : string) (ks : list string) :
  In x (StdMap.key_insert k ks) -> x = k \/ In x ks.
Proof.
  induction ks as [|k' rest IH]; simpl.
  - intros [<-|[]]. now left.
  - destruct (String.compare k k'); simpl;
      intros [<-|H]; auto.
    destruct (IH H); auto.
Qed.

Lemma key_insert_sorted (k : string) (ks : list string) :
  Sorted StdMap.key_lt ks -> Sorted StdMap.key_lt (StdMap.key_insert k ks).
Proof.
  induction 1 as [|k' rest Hs IH Hh]; simpl.
  - repeat constructor.
  - destruct (String.compare k k') eqn:E.
    + apply String.compare_eq_iff in E. subst k'.
      constructor; assumption.
    + constructor; [constructor; assumption|].
      constructor. exact E.
    + constructor; [exact IH|].
      destruct rest as [|k2 rest]; simpl.
      * constructor. unfold StdMap.key_lt.
        rewrite String.compare_antisym, E. reflexivity.
      * inversion Hh; subst.
        destruct (String.compare k k2); constructor;
          try assumption;
          unfold StdMap.key_lt; rewrite String.compare_antisym, E; reflexivity.
Qed.

End MapFacts.

(** ** One call of [analyze] *)

Section AnalyzeFacts.

Lemma analyze_veto (ev : Event) (s : State) :
  accepts ev = false -> analyze ev s = read_heavy_ion ev s.
Proof.
  unfold accepts, analyze.
  destruct (select_dijet (jetsByPt cuts (jets ev))) as [[j1 j2]|];
    [discriminate|reflexivity].
Qed.

Lemma analyze_accept (ev : Event) (s : State) (j1 j2 : Jet) :
  select_dijet (jetsByPt cuts (jets ev)) = Some (j1, j2) ->
  analyze ev s =
  write_in_file
    (store "Weight" (weight0 ev) (store_dijet j1 j2 (read_heavy_ion ev s))).
Proof. unfold analyze. now intros ->. Qed.

Lemma accepts_select (ev : Event) :
  accepts ev = true ->
  exists j1 j2, select_dijet (jetsByPt cuts (jets ev)) = Some (j1, j2).
Proof.
  unfold accepts.
  destruct (select_dijet (jetsByPt cuts (jets ev))) as [[j1 j2]|];
    [eauto|discriminate].
Qed.

Lemma read_heavy_ion_frame (ev : Event) (s : State) :
  _file (read_heavy_ion ev s) = _file s /\
  _open (read_heavy_ion ev s) = _open s /\
  _eventNumber (read_heavy_ion ev s) = _eventNumber s /\
  _firstPrint (read_heavy_ion ev s) = _firstPrint s /\
  cout (read_heavy_ion ev s) = cout s.
Proof. unfold read_heavy_ion. destruct (heavy_ion ev); simpl; auto. Qed.

Lemma print_closed (var : bool) (s : State) :
  is_open (_file s) = false -> print var s = s.
Proof. unfold print. now intros ->. Qed.

(** Case analysis on the stream state and the header flag. *)
Ltac by_cases_on s :=
  destruct s as [[o c] op n fp m co];
  unfold write_in_file, print, write, with_file; simpl;
  destruct fp, o; simpl; rewrite <- ?app_assoc; auto.

Lemma write_in_file_toWrite (s : State) :
  _toWrite (write_in_file s) = _toWrite s.
Proof. by_cases_on s. Qed.

Lemma write_in_file_firstPrint (s : State) :
  _firstPrint (write_in_file s) = false.
Proof. by_cases_on s. Qed.

Lemma write_in_file_is_open (s : State) :
  is_open (_file (write_in_file s)) = is_open (_file s).
Proof. by_cases_on s. Qed.

Lemma write_in_file_open_cout (s : State) :
  _open (write_in_file s) = _open s /\ cout (write_in_file s) = cout s.
Proof. by_cases_on s. Qed.

Lemma write_in_file_eventNumber (s : State) :
  _eventNumber (write_in_file s) = int_incr (_eventNumber s).
Proof. by_cases_on s. Qed.

Lemma write_in_file_content (s : State) :
  content (_file (write_in_file s)) =
  if is_open (_file s) then
    content (_file s)
    ++ (if _firstPrint s then header_row (_toWrite s) else [])
    ++ data_row (_toWrite s)
  else content (_file s).
Proof. by_cases_on s. Qed.

Lemma analyze_is_open (ev : Event) (s : State) :
  is_open (_file (analyze ev s)) = is_open (_file s).
Proof.
  destruct (accepts ev) eqn:A.
  - destruct (accepts_select ev A) as (j1 & j2 & E).
    rewrite (analyze_accept ev s j1 j2 E), write_in_file_is_open. simpl.
    now destruct (read_heavy_ion_frame ev s) as (-> & _).
  - rewrite (analyze_veto ev s A).
    now destruct (read_heavy_ion_frame ev s) as (-> & _).
Qed.

Lemma analyze_open_cout (ev : Event) (s : State) :
  _open (analyze ev s) = _open s /\ cout (analyze ev s) = cout s.
Proof.
  destruct (read_heavy_ion_frame ev s) as (_ & Ho & _ & _ & Hc).
  destruct (accepts ev) eqn:A.
  - destruct (accepts_select ev A) as (j1 & j2 & E).
    rewrite (analyze_accept ev s j1 j2 E).
    destruct (write_in_file_open_cout
                (store "Weight" (weight0 ev)
                       (store_dijet j1 j2 (read_heavy_ion ev s))))
      as (-> & ->).
    simpl. auto.
  - rewrite (analyze_veto ev s A). auto.
Qed.

Lemma analyze_firstPrint (ev : Event) (s : State) :
  _firstPrint (analyze ev s) = if accepts ev then false else _firstPrint s.
Proof.
  destruct (accepts ev) eqn:A.
  - destruct (accepts_select ev A) as (j1 & j2 & E).
    rewrite (analyze_accept ev s j1 j2 E). apply write_in_file_firstPrint.
  - rewrite (analyze_veto ev s A).
    now destruct (read_heavy_ion_frame ev s) as (_ & _ & _ & -> & _).
Qed.

(** What one event appends to the file. *)
Lemma analyze_content (ev : Event) (s : State) :
  content (_file (analyze ev s)) =
  if accepts ev && is_open (_file s) then
    content (_file s)
    ++ (if _firstPrint s then header_row (_toWrite (analyze ev s)) else [])
    ++ data_row (_toWrite (analyze ev s))
  else content (_file s).
Proof.
  destruct (read_heavy_ion_frame ev s) as (Hf & _ & _ & Hp & _).
  destruct (accepts ev) eqn:A; simpl.
  - destruct (accepts_select ev A) as (j1 & j2 & E).
    rewrite (analyze_accept ev s j1 j2 E).
    rewrite write_in_file_content, write_in_file_toWrite. simpl.
    rewrite Hf, Hp. reflexivity.
  - rewrite (analyze_veto ev s A), Hf. reflexivity.
Qed.

End AnalyzeFacts.

(** ** The keys of [_toWrite] *)

Section KeyFacts.

Lemma keys_store (k : string) (v : Q) (s : State) :
  StdMap.keys (_toWrite (store k v s)) =
  StdMap.key_insert k (StdMap.keys (_toWrite s)).
Proof. apply keys_set. Qed.

Lemma keys_read_heavy_ion (ev : Event) (s : State) :
  StdMap.keys (_toWrite (read_heavy_ion ev s)) =
  match heavy_ion ev with
  | Some _ =>
      StdMap.key_insert "JProdR"
        (StdMap.key_insert "Polar" (StdMap.keys (_toWrite s)))
  | None => StdMap.keys (_toWrite s)
  end.
Proof.
  unfold read_heavy_ion. destruct (heavy_ion ev); [|reflexivity].
  now rewrite !keys_store.
Qed.

Lemma keys_store_dijet (j1 j2 : Jet) (s : State) :
  StdMap.keys (_toWrite (store_dijet j1 j2 s)) =
  StdMap.key_insert "Aj"
    (StdMap.key_insert "Jet1_Ang"
       (StdMap.key_insert "JetAngle"
          (StdMap.key_insert "Jet2_pT"
             (StdMap.key_insert "Jet1_pT" (StdMap.keys (_toWrite s)))))).
Proof. unfold store_dijet. now rewrite !keys_store. Qed.

Lemma keys_ok_read_heavy_ion (ev : Event) (s : State) :
  keys_ok (StdMap.keys (_toWrite s)) ->
  keys_ok (StdMap.keys (_toWrite (read_heavy_ion ev s))).
Proof.
  rewrite keys_read_heavy_ion. destruct (heavy_ion ev); [|auto].
  unfold keys_ok. intros [-> | [-> | [-> | ->]]]; vm_compute; auto.
Qed.

(** After an accepted event the record has the jet fields, and the two
    heavy-ion fields as soon as some event so far carried the metadata. *)
Lemma keys_accept (ev : Event) (s : State) (j1 j2 : Jet) :
  keys_ok (StdMap.keys (_toWrite s)) ->
  select_dijet (jetsByPt cuts (jets ev)) = Some (j1, j2) ->
  StdMap.keys (_toWrite (analyze ev s)) =
  if has_hion ev || has_polar s then FIELDS_ALL else FIELDS_JETS.
Proof.
  intros Hk E. rewrite (analyze_accept ev s j1 j2 E), write_in_file_toWrite.
  rewrite keys_store, keys_store_dijet, keys_read_heavy_ion.
  unfold has_hion, has_polar.
  destruct (heavy_ion ev); destruct Hk as [-> | [-> | [-> | ->]]];
    reflexivity.
Qed.

Lemma keys_ok_analyze (ev : Event) (s : State) :
  keys_ok (StdMap.keys (_toWrite s)) ->
  keys_ok (StdMap.keys (_toWrite (analyze ev s))).
Proof.
  intro Hk. destruct (accepts ev) eqn:A.
  - destruct (accepts_select ev A) as (j1 & j2 & E).
    rewrite (keys_accept ev s j1 j2 Hk E). unfold keys_ok.
    destruct (_ || _); auto.
  - rewrite (analyze_veto ev s A). now apply keys_ok_read_heavy_ion.
Qed.

Lemma keys_ok_init (can_open : string -> bool) (typed : string) :
  keys_ok (StdMap.keys (_toWrite (init can_open typed))).
Proof. unfold init. destruct (can_open _); left; reflexivity. Qed.

End KeyFacts.

(** ** A sequence of events *)

Section RunFacts.

Lemma analyze_all_cons (ev : Event) (events : list Event) (s : State) :
  analyze_all (ev :: events) s = analyze_all events (analyze ev s).
Proof. reflexivity. Qed.

Lemma analyze_all_app (pre post : list Event) (s : State) :
  analyze_all (pre ++ post) s = analyze_all post (analyze_all pre s).
Proof. apply fold_left_app. Qed.

Lemma analyze_all_is_open (events : list Event) (s : State) :
  is_open (_file (analyze_all events s)) = is_open (_file s).
Proof.
  revert s. induction events as [|ev rest IH]; intro s; [reflexivity|].
  rewrite analyze_all_cons, IH. apply analyze_is_open.
Qed.

Lemma analyze_all_open_cout (events : list Event) (s : State) :
  _open (analyze_all events s) = _open s /\
  cout (analyze_all events s) = cout s.
Proof.
  revert s. induction events as [|ev rest IH]; intro s; [auto|].
  rewrite analyze_all_cons.
  destruct (IH (analyze ev s)) as (-> & ->). apply analyze_open_cout.
Qed.

Lemma keys_ok_analyze_all (events : list Event) (s : State) :
  keys_ok (StdMap.keys (_toWrite s)) ->
  keys_ok (StdMap.keys (_toWrite (analyze_all events s))).
Proof.
  revert s. induction events as [|ev rest IH]; intros s Hk; [exact Hk|].
  rewrite analyze_all_cons. apply IH, keys_ok_analyze, Hk.
Qed.

Lemma table_no_header (ms : list StdMap.t) :
  table false ms = List.concat (List.map data_row ms).
Proof. destruct ms; reflexivity. Qed.

(** The file after a sequence of events, on an open stream. *)
Lemma analyze_all_content (events : list Event) (s : State) :
  is_open (_file s) = true ->
  content (_file (analyze_all events s)) =
  content (_file s) ++ table (_firstPrint s) (printed_records events s).
Proof.
  revert s. induction events as [|ev rest IH]; intros s Ho.
  - simpl. now rewrite app_nil_r.
  - rewrite analyze_all_cons, IH by now rewrite analyze_is_open.
    rewrite analyze_content, analyze_firstPrint, Ho. simpl.
    destruct (accepts ev); simpl.
    + rewrite table_no_header, <- !app_assoc. reflexivity.
    + reflexivity.
Qed.

(** On a stream that is not open nothing is ever written. *)
Lemma analyze_all_closed (events : list Event) (s : State) :
  is_open (_file s) = false ->
  content (_file (analyze_all events s)) = content (_file s).
Proof.
  revert s. induction events as [|ev rest IH]; intros s Ho; [reflexivity|].
  rewrite analyze_all_cons, IH by now rewrite analyze_is_open.
  rewrite analyze_content, Ho, andb_false_r. reflexivity.
Qed.

Lemma printed_records_veto (pre post : list Event) (s : State) :
  forallb (fun ev => negb (accepts ev)) pre = true ->
  printed_records (pre ++ post) s =
  printed_records post (analyze_all pre s).
Proof.
  revert s. induction pre as [|ev rest IH]; intros s H; [reflexivity|].
  simpl in H. apply andb_true_iff in H. destruct H as [Hv Hr].
  apply negb_true_iff in Hv. simpl. rewrite Hv. apply IH, Hr.
Qed.

Lemma data_row_values (m : StdMap.t) : Forall value_token (data_row m).
Proof.
  unfold data_row. apply Forall_app. split.
  - induction m as [|[k v] rest IH]; simpl.
    + constructor.
    + constructor; [exact I|]. constructor; [now left|]. exact IH.
  - constructor; [now right|constructor].
Qed.

Lemma rows_values (ms : list StdMap.t) :
  Forall value_token (List.concat (List.map data_row ms)).
Proof.
  induction ms as [|m rest IH]; simpl.
  - constructor.
  - apply Forall_app. split; [apply data_row_values|exact IH].
Qed.

End RunFacts.

(** ** The selection of the two jets *)

Section SelectionFacts.

Lemma select_dijet_short (l : list Jet) :
  (List.length l < 2)%nat -> select_dijet l = None.
Proof.
  destruct l as [|j1 [|j rest]]; simpl; intro H; try reflexivity. lia.
Qed.

Lemma select_dijet_front (l : list Jet) (j1 j2 : Jet) :
  select_dijet l = Some (j1, j2) ->
  exists j rest,
    l = j1 :: j :: rest /\ (pT j1 <? 80 * GeV) = false /\
    find (back_to_back j1) l = Some j2.
Proof.
  unfold select_dijet. destruct l as [|a [|j rest]]; try discriminate.
  destruct (pT a <? 80 * GeV) eqn:Hpt; [discriminate|].
  destruct (find (back_to_back a) (a :: j :: rest)) as [b|] eqn:Hf;
    [|discriminate].
  intro H. injection H as <- <-. eauto.
Qed.

Lemma select_dijet_soft (l : list Jet) (j1 : Jet) (rest : list Jet) :
  l = j1 :: rest -> pT j1 < 80 -> select_dijet l = None.
Proof.
  intros -> H. unfold select_dijet. destruct rest as [|j rest]; [reflexivity|].
  assert (E : (pT j1 <? 80 * GeV) = true).
  { apply Qltb_lt. now rewrite GeV_one. }
  now rewrite E.
Qed.

Lemma select_dijet_no_partner (l : list Jet) :
  (forall j1 rest j, l = j1 :: rest -> In j l -> back_to_back j1 j = false) ->
  select_dijet l = None.
Proof.
  intro H. destruct (select_dijet l) as [[j1 j2]|] eqn:E; [|reflexivity].
  destruct (select_dijet_front l j1 j2 E) as (j & rest & El & _ & Hf).
  apply find_some in Hf. destruct Hf as [Hin Hb].
  rewrite (H j1 (j :: rest) j2 El Hin) in Hb. discriminate.
Qed.

(** A jet is never back-to-back with itself. *)
Lemma back_to_back_self (j : Jet) : back_to_back j j = false.
Proof.
  unfold back_to_back. apply Qltb_ge.
  setoid_replace (phi j - phi j) with 0 by ring.
  change (Qabs 0) with 0.
  setoid_replace (0 - PI) with (- PI) by ring.
  rewrite Qabs_opp, Qabs_pos by (apply Qlt_le_weak, PI_pos).
  pose proof PI_pos. apply Qle_shift_div_r; [reflexivity|]. lra.
Qed.

Lemma find_split {A : Type} (f : A -> bool) (l : list A) (x : A) :
  find f l = Some x ->
  exists pre post,
    l = pre ++ x :: post /\ Forall (fun y => f y = false) pre /\ f x = true.
Proof.
  induction l as [|a rest IH]; simpl; [discriminate|].
  destruct (f a) eqn:Fa.
  - intro H. injection H as <-. exists [], rest. auto.
  - intro H. destruct (IH H) as (pre & post & -> & Hpre & Hx).
    exists (a :: pre), post. auto.
Qed.

Lemma veto_keeps_file (ev : Event) (s : State) :
  select_dijet (jetsByPt cuts (jets ev)) = None ->
  accepts ev = false /\ _file (analyze ev s) = _file s.
Proof.
  intro E. assert (A : accepts ev = false) by (unfold accepts; now rewrite E).
  split; [exact A|]. rewrite (analyze_veto ev s A).
  now destruct (read_heavy_ion_frame ev s) as (-> & _).
Qed.

End SelectionFacts.

(** ** The claims on the selection *)

(** C6.  An event with fewer than two jets passing the cut (pT above
    20 GeV and absolute pseudorapidity below 2) is vetoed: [analyze]
    leaves the file as it was, so no row is emitted. *)
Theorem C6_fewer_than_two_jets (ev : Event) (s : State) :
  (List.length (filter cuts (jets ev)) < 2)%nat ->
  accepts ev = false /\
  _file (analyze ev s) = _file s /\
  content (_file (analyze ev s)) = content (_file s).
Proof.
  intro H. rewrite <- jetsByPt_length in H.
  destruct (veto_keeps_file ev s (select_dijet_short _ H)) as [A F].
  rewrite F. auto.
Qed.

(** C7.  When the hardest jet passing the cut has pT below 80 GeV the
    event is vetoed, however many jets pass the cut. *)
Theorem C7_leading_jet_below_80 (ev : Event) (s : State) (j : Jet) :
  In j (jets ev) -> cuts j = true ->
  (forall j', In j' (jets ev) -> cuts j' = true -> pT j' <= pT j) ->
  pT j < 80 ->
  accepts ev = false /\
  _file (analyze ev s) = _file s /\
  content (_file (analyze ev s)) = content (_file s).
Proof.
  intros Hin Hc Hmax Hlt.
  assert (E : select_dijet (jetsByPt cuts (jets ev)) = None).
  { destruct (jetsByPt cuts (jets ev)) as [|j1 rest] eqn:El; [reflexivity|].
    apply (select_dijet_soft _ j1 rest eq_refl).
    assert (H1 : In j1 (jetsByPt cuts (jets ev))) by (rewrite El; now left).
    apply jetsByPt_In in H1. destruct H1 as [H1 H2].
    apply Qle_lt_trans with (pT j); auto. }
  destruct (veto_keeps_file ev s E) as [A F]. rewrite F. auto.
Qed.

(** C8.  When no jet passing the cut is within PI/8 of PI in azimuth from
    the leading jet (the first jet of the list ordered by pT), the event
    is vetoed. *)
Theorem C8_no_back_to_back_jet (ev : Event) (s : State) :
  (forall j1 rest j,
      jetsByPt cuts (jets ev) = j1 :: rest ->
      In j (jets ev) -> cuts j = true ->
      ~ Qabs (Qabs (phi j1 - phi j) - PI) < PI / 8) ->
  accepts ev = false /\
  _file (analyze ev s) = _file s /\
  content (_file (analyze ev s)) = content (_file s).
Proof.
  intro H.
  assert (E : select_dijet (jetsByPt cuts (jets ev)) = None).
  { apply select_dijet_no_partner. intros j1 rest j El Hin.
    apply jetsByPt_In in Hin. destruct Hin as [Hin Hc].
    apply not_true_iff_false. unfold back_to_back. rewrite Qltb_lt.
    exact (H j1 rest j El Hin Hc). }
  destruct (veto_keeps_file ev s E) as [A F]. rewrite F. auto.
Qed.

Lemma C6_fewer_than_two_jets_witness :
  (List.length (filter cuts (jets ev_single)) < 2)%nat /\
  accepts ev_single = false /\
  _file (analyze ev_single (init always_open "eventdata.dat")) =
  _file (init always_open "eventdata.dat") /\
  content (_file (analyze ev_single (init always_open "eventdata.dat"))) =
  content (_file (init always_open "eventdata.dat")).
Proof.
  assert (H : (List.length (filter cuts (jets ev_single)) < 2)%nat)
    by (vm_compute; lia).
  split; [exact H|].
  exact (C6_fewer_than_two_jets ev_single
           (init always_open "eventdata.dat") H).
Defined.

Lemma C7_leading_jet_below_80_witness :
  accepts ev_soft = false /\
  _file (analyze ev_soft (init always_open "eventdata.dat")) =
  _file (init always_open "eventdata.dat") /\
  content (_file (analyze ev_soft (init always_open "eventdata.dat"))) =
  content (_file (init always_open "eventdata.dat")).
Proof.
  apply (C7_leading_jet_below_80 ev_soft (init always_open "eventdata.dat")
           (mkJet 70 0 0)).
  - right; left; reflexivity.
  - reflexivity.
  - intros j' [<-|[<-|[]]] _; unfold Qle; simpl; lia.
  - reflexivity.
Defined.

Lemma C8_no_back_to_back_jet_witness :
  accepts ev_same_side = false /\
  _file (analyze ev_same_side (init always_open "eventdata.dat")) =
  _file (init always_open "eventdata.dat") /\
  content (_file (analyze ev_same_side (init always_open "eventdata.dat"))) =
  content (_file (init always_open "eventdata.dat")).
Proof.
  apply (C8_no_back_to_back_jet ev_same_side
           (init always_open "eventdata.dat")).
  intros j1 rest j E. vm_compute in E. injection E as <- <-.
  intros [<-|[<-|[]]] _; vm_compute; intro H; discriminate H.
Defined.

(** ** Whole runs *)

Section WholeRun.

Lemma finalize_content (s : State) :
  content (_file (finalize s)) = content (_file s).
Proof. unfold finalize. now destruct (_open s). Qed.

Lemma finalize_toWrite (s : State) : _toWrite (finalize s) = _toWrite s.
Proof. unfold finalize. now destruct (_open s). Qed.

Lemma finalize_not_open (s : State) : _open s = false -> finalize s = s.
Proof. unfold finalize. now intros ->. Qed.

Lemma init_opened (can_open : string -> bool) (typed : string) :
  can_open (file_name typed) = true ->
  init can_open typed =
  mkState (mkFstream true []) true 0%Z true StdMap.empty
          [NL; NL; "Out file name: "; NL].
Proof. unfold init. now intros ->. Qed.

Lemma init_failed (can_open : string -> bool) (typed : string) :
  can_open (file_name typed) = false ->
  init can_open typed =
  mkState (mkFstream false []) false 0%Z true StdMap.empty
          [NL; NL; "Out file name: "; NL; WARNING; NL].
Proof. unfold init. now intros ->. Qed.

Lemma analyze_eventNumber (ev : Event) (s : State) :
  _eventNumber (analyze ev s) =
  if accepts ev then int_incr (_eventNumber s) else _eventNumber s.
Proof.
  destruct (accepts ev) eqn:A.
  - destruct (accepts_select ev A) as (j1 & j2 & E).
    rewrite (analyze_accept ev s j1 j2 E), write_in_file_eventNumber.
    simpl. now destruct (read_heavy_ion_frame ev s) as (_ & _ & -> & _).
  - rewrite (analyze_veto ev s A).
    now destruct (read_heavy_ion_frame ev s) as (_ & _ & -> & _).
Qed.

Lemma int_incr_small (n : Z) :
  (n < 2147483647)%Z -> int_incr n = (n + 1)%Z.
Proof.
  intro H. unfold int_incr.
  destruct (Z.eqb_spec n 2147483647); [lia|reflexivity].
Qed.

(** As long as the counter stays below 2^31 it counts the accepted
    events. *)
Lemma analyze_all_eventNumber (events : list Event) (s : State) :
  (0 <= _eventNumber s)%Z ->
  (_eventNumber s + Z.of_nat (List.length (filter accepts events))
   < 2147483648)%Z ->
  _eventNumber (analyze_all events s) =
  (_eventNumber s + Z.of_nat (List.length (filter accepts events)))%Z.
Proof.
  revert s. induction events as [|ev rest IH]; intros s H0 Hb.
  - simpl. lia.
  - rewrite analyze_all_cons. cbn [filter] in *.
    pose proof (analyze_eventNumber ev s) as Hn.
    destruct (accepts ev); cbn [List.length] in *.
    + rewrite int_incr_small in Hn by lia.
      rewrite IH; rewrite Hn; lia.
    + rewrite IH; rewrite Hn; [reflexivity|exact H0|exact Hb].
Qed.

Lemma has_polar_analyze (ev : Event) (s : State) :
  keys_ok (StdMap.keys (_toWrite s)) ->
  has_polar (analyze ev s) = has_hion ev || has_polar s.
Proof.
  intro Hk. destruct (accepts ev) eqn:A.
  - destruct (accepts_select ev A) as (j1 & j2 & E).
    pose proof (keys_accept ev s j1 j2 Hk E) as K.
    set (b := has_hion ev || has_polar s) in *.
    unfold has_polar. rewrite K. destruct b; reflexivity.
  - rewrite (analyze_veto ev s A). unfold has_polar, has_hion.
    rewrite keys_read_heavy_ion.
    destruct (heavy_ion ev); destruct Hk as [-> | [-> | [-> | ->]]];
      reflexivity.
Qed.

Lemma printed_keys_spec (events : list Event) (s : State) :
  keys_ok (StdMap.keys (_toWrite s)) ->
  List.map StdMap.keys (printed_records events s) =
  printed_keys events (has_polar s).
Proof.
  revert s. induction events as [|ev rest IH]; intros s Hk; [reflexivity|].
  simpl. pose proof (keys_ok_analyze ev s Hk) as Hk'.
  rewrite <- (has_polar_analyze ev s Hk).
  destruct (accepts ev) eqn:A.
  - destruct (accepts_select ev A) as (j1 & j2 & E).
    simpl. rewrite (IH _ Hk'). f_equal.
    rewrite (keys_accept ev s j1 j2 Hk E), <- (has_polar_analyze ev s Hk).
    reflexivity.
  - apply IH, Hk'.
Qed.

Lemma printed_keys_sorted (events : list Event) (seen : bool) :
  Forall (Sorted StdMap.key_lt) (printed_keys events seen).
Proof.
  revert seen. induction events as [|ev rest IH]; intro seen; simpl.
  - constructor.
  - destruct (accepts ev); [|apply IH].
    constructor; [|apply IH].
    destruct (has_hion ev || seen); repeat constructor.
Qed.

Lemma analyze_all_firstPrint (events : list Event) (s : State) :
  _firstPrint s = false -> _firstPrint (analyze_all events s) = false.
Proof.
  revert s. induction events as [|e rest IH]; intros s F; [exact F|].
  rewrite analyze_all_cons. apply IH.
  rewrite analyze_firstPrint, F. now destruct (accepts e).
Qed.

End WholeRun.

(** ** The claims on the table *)

(** C5.  When the file cannot be opened at startup, the warning appears
    once on the standard output, [print] leaves the state as it is at
    every point of the run, and at the end of the run, which [finalize]
    leaves as the last event left it, nothing is in the file. *)
Theorem C5_sink_unavailable (can_open : string -> bool) (typed : string)
        (events : list Event) :
  can_open (file_name typed) = false ->
  content (_file (run can_open typed events)) = [] /\
  is_open (_file (run can_open typed events)) = false /\
  List.length (filter (String.eqb WARNING)
                      (cout (run can_open typed events))) = 1%nat /\
  (forall n var,
      print var (analyze_all (firstn n events) (init can_open typed)) =
      analyze_all (firstn n events) (init can_open typed)) /\
  run can_open typed events = analyze_all events (init can_open typed).
Proof.
  intro Hfail. pose proof (init_failed can_open typed Hfail) as Hi.
  assert (Hclosed : forall evs,
             is_open (_file (analyze_all evs (init can_open typed))) = false).
  { intro evs. rewrite analyze_all_is_open, Hi. reflexivity. }
  assert (Hfin : run can_open typed events =
                 analyze_all events (init can_open typed)).
  { unfold run. apply finalize_not_open.
    destruct (analyze_all_open_cout events (init can_open typed)) as (-> & _).
    rewrite Hi. reflexivity. }
  rewrite Hfin. repeat split.
  - rewrite analyze_all_closed; rewrite Hi; reflexivity.
  - apply Hclosed.
  - destruct (analyze_all_open_cout events (init can_open typed)) as (_ & ->).
    rewrite Hi. reflexivity.
  - intros n var. apply print_closed, Hclosed.
Qed.

Lemma C5_sink_unavailable_witness :
  never_open (file_name "eventdata.dat") = false /\
  content (_file (run never_open "eventdata.dat" [ev_hion_only; ev_dijet]))
  = [] /\
  is_open (_file (run never_open "eventdata.dat" [ev_hion_only; ev_dijet]))
  = false /\
  List.length
    (filter (String.eqb WARNING)
            (cout (run never_open "eventdata.dat" [ev_hion_only; ev_dijet])))
  = 1%nat /\
  (forall n var,
      print var (analyze_all (firstn n [ev_hion_only; ev_dijet])
                             (init never_open "eventdata.dat")) =
      analyze_all (firstn n [ev_hion_only; ev_dijet])
                  (init never_open "eventdata.dat")) /\
  run never_open "eventdata.dat" [ev_hion_only; ev_dijet] =
  analyze_all [ev_hion_only; ev_dijet] (init never_open "eventdata.dat").
Proof.
  assert (H : never_open (file_name "eventdata.dat") = false)
    by reflexivity.
  split; [exact H|].
  exact (C5_sink_unavailable never_open "eventdata.dat"
           [ev_hion_only; ev_dijet] H).
Defined.

Section FirstAccepted.

Lemma first_accepted_some (events pre post : list Event) (ev : Event) :
  first_accepted events = Some (pre, ev, post) ->
  events = pre ++ ev :: post /\
  forallb (fun e => negb (accepts e)) pre = true /\
  accepts ev = true.
Proof.
  revert pre. induction events as [|e rest IH]; intros pre; simpl;
    [discriminate|].
  destruct (accepts e) eqn:A.
  - intro H. injection H as <- <- <-. auto.
  - destruct (first_accepted rest) as [[[p x] q]|]; [|discriminate].
    intro H. injection H as <- <- <-.
    destruct (IH p eq_refl) as (-> & Hp & Hx).
    simpl. rewrite A, Hp. auto.
Qed.

Lemma first_accepted_none (events : list Event) :
  first_accepted events = None ->
  forallb (fun e => negb (accepts e)) events = true.
Proof.
  induction events as [|e rest IH]; simpl; [reflexivity|].
  destruct (accepts e); [discriminate|].
  destruct (first_accepted rest) as [[[p x] q]|]; [discriminate|].
  intros _. now apply IH.
Qed.

Lemma header_row_names (m : StdMap.t) :
  header_row m =
  flat_map (fun k => [OStr k; OStr TAB]) (StdMap.keys m) ++ [OStr NL].
Proof.
  unfold header_row, StdMap.keys. f_equal.
  induction m as [|it rest IH]; [reflexivity|]. simpl. now rewrite IH.
Qed.

Lemma rows_flat_map (ms : list StdMap.t) :
  List.concat (List.map data_row ms) =
  flat_map
    (fun m => flat_map (fun it => [ONum (snd it); OStr TAB]) m ++ [OStr NL])
    ms.
Proof. symmetry. apply flat_map_concat_map. Qed.

End FirstAccepted.

(** C3, as stated: not every run writes the header once.  A run whose
    file could not be opened writes no header although an event is
    accepted, and a run in which every event is vetoed writes none
    either. *)
Lemma C3_no_header_counterexample :
  accepts ev_dijet = true /\
  content (_file (run never_open "eventdata.dat" [ev_dijet])) = [] /\
  existsb accepts [ev_single; ev_soft] = false /\
  content (_file (run always_open "eventdata.dat" [ev_single; ev_soft]))
  = [].
Proof. repeat split. Qed.

(** C3, amended.  In every run: when no event is accepted, or the file
    could not be opened, nothing is written.  Otherwise, with [ev] the
    first accepted event, the file starts with one row of names, those of
    the record as [ev] left it (the six jet columns, or all eight), each
    followed by a tab, and a newline; after it come rows of values only:
    that of [ev], then one for each event accepted later, whatever fields
    these populate. *)
Theorem C3_header_written_once (can_open : string -> bool) (typed : string)
        (events : list Event) :
  match first_accepted events with
  | None => content (_file (run can_open typed events)) = []
  | Some (pre, ev, post) =>
      let s1 := analyze ev (analyze_all pre (init can_open typed)) in
      let names := StdMap.keys (_toWrite s1) in
      let rows :=
        flat_map
          (fun m =>
             flat_map (fun it => [ONum (snd it); OStr TAB]) m ++ [OStr NL])
          (_toWrite s1 :: printed_records post s1) in
      events = pre ++ ev :: post /\
      forallb (fun e => negb (accepts e)) pre = true /\
      accepts ev = true /\
      (names = FIELDS_JETS \/ names = FIELDS_ALL) /\
      Forall value_token rows /\
      content (_file (run can_open typed events)) =
      if can_open (file_name typed)
      then (flat_map (fun k => [OStr k; OStr TAB]) names ++ [OStr NL])
           ++ rows
      else []
  end.
Proof.
  destruct (first_accepted events) as [[[pre ev] post]|] eqn:F.
  - destruct (first_accepted_some _ _ _ _ F) as (-> & Hpre & Hev).
    intros s1 names rows.
    destruct (accepts_select ev Hev) as (j1 & j2 & E).
    assert (Hn : names = FIELDS_JETS \/ names = FIELDS_ALL).
    { unfold names, s1.
      rewrite (keys_accept ev _ j1 j2 (keys_ok_analyze_all _ _
                 (keys_ok_init can_open typed)) E).
      destruct (has_hion ev || _); auto. }
    assert (Hr : rows = List.concat
                          (List.map data_row
                                    (_toWrite s1 :: printed_records post s1)))
      by (symmetry; apply rows_flat_map).
    repeat split; auto.
    + rewrite Hr. apply rows_values.
    + unfold run. rewrite finalize_content.
      destruct (can_open (file_name typed)) eqn:O.
      * pose proof (init_opened can_open typed O) as Hi.
        rewrite analyze_all_content by (rewrite Hi; reflexivity).
        rewrite (printed_records_veto pre (ev :: post) _ Hpre).
        simpl printed_records. rewrite Hev. fold s1.
        rewrite Hi. cbn [_file content _firstPrint table app].
        rewrite header_row_names, Hr. reflexivity.
      * rewrite analyze_all_closed;
          rewrite (init_failed can_open typed O); reflexivity.
  - pose proof (first_accepted_none _ F) as Hall.
    unfold run. rewrite finalize_content.
    destruct (can_open (file_name typed)) eqn:O.
    + pose proof (init_opened can_open typed O) as Hi.
      rewrite analyze_all_content by (rewrite Hi; reflexivity).
      rewrite <- (app_nil_r events), (printed_records_veto events [] _ Hall).
      rewrite Hi. reflexivity.
    + rewrite analyze_all_closed;
        rewrite (init_failed can_open typed O); reflexivity.
Qed.

(** C1, as stated: the columns do not come in the order in which the
    fields are first assigned.  In the run of the single event [ev_dijet]
    the one record printed has its columns in the order of [FIELDS_ALL],
    which starts with Aj and not with Polar. *)
Lemma C1_insertion_order_counterexample :
  List.map StdMap.keys
           (printed_records [ev_dijet] (init always_open "eventdata.dat"))
  = [FIELDS_ALL] /\
  content (_file (run always_open "eventdata.dat" [ev_dijet])) =
  header_row (_toWrite (run always_open "eventdata.dat" [ev_dijet]))
  ++ data_row (_toWrite (run always_open "eventdata.dat" [ev_dijet])) /\
  header_row (_toWrite (run always_open "eventdata.dat" [ev_dijet])) =
  [OStr "Aj"; OStr TAB; OStr "JProdR"; OStr TAB; OStr "Jet1_Ang"; OStr TAB;
   OStr "Jet1_pT"; OStr TAB; OStr "Jet2_pT"; OStr TAB; OStr "JetAngle";
   OStr TAB; OStr "Polar"; OStr TAB; OStr "Weight"; OStr TAB; OStr NL] /\
  ~ Forall (fun m => StdMap.keys m = FIELDS_INSERTION)
      (printed_records [ev_dijet] (init always_open "eventdata.dat")).
Proof.
  repeat split; try reflexivity.
  intro H. inversion H as [|m ms Hm _]; subst. discriminate Hm.
Qed.

(** C1, amended.  The file of a run is the table of the records printed
    (empty when the file could not be opened); the names of the header and
    the values of every row come in the iteration order of the map, which
    is the ascending byte-wise order of the names: Aj, JProdR, Jet1_Ang,
    Jet1_pT, Jet2_pT, JetAngle, Polar, Weight, without JProdR and Polar
    as long as no event of the run has carried heavy-ion metadata. *)
Theorem C1_columns_in_key_order (can_open : string -> bool)
        (typed : string) (events : list Event) :
  content (_file (run can_open typed events)) =
  (if can_open (file_name typed)
   then table true (printed_records events (init can_open typed))
   else []) /\
  List.map StdMap.keys (printed_records events (init can_open typed)) =
  printed_keys events false /\
  Forall (Sorted StdMap.key_lt) (printed_keys events false) /\
  Forall (fun ks => ks = FIELDS_JETS \/ ks = FIELDS_ALL)
         (printed_keys events false).
Proof.
  repeat split.
  - unfold run. rewrite finalize_content.
    destruct (can_open (file_name typed)) eqn:O.
    + rewrite analyze_all_content; rewrite (init_opened _ _ O); reflexivity.
    + rewrite analyze_all_closed; rewrite (init_failed _ _ O); reflexivity.
  - rewrite printed_keys_spec by apply keys_ok_init.
    f_equal. unfold init. now destruct (can_open (file_name typed)).
  - apply printed_keys_sorted.
  - generalize false. induction events as [|ev rest IH]; intro seen; simpl.
    + constructor.
    + destruct (accepts ev); [|apply IH].
      constructor; [|apply IH]. destruct (has_hion ev || seen); auto.
Qed.

(** C2, as stated: a vetoed event does change the record.  [ev_hion_only]
    is vetoed and writes no row, yet it leaves Polar and JProdR in
    [_toWrite]; the row of the next accepted event, which carries no
    metadata of its own, shows them. *)
Lemma C2_veto_leaves_values_counterexample :
  accepts ev_hion_only = false /\
  _toWrite (analyze ev_hion_only (init always_open "eventdata.dat")) =
  [("JProdR", 9); ("Polar", 7)] /\
  _toWrite (analyze ev_hion_only (init always_open "eventdata.dat")) <>
  _toWrite (init always_open "eventdata.dat") /\
  heavy_ion ev_dijet_plain = None /\
  List.map (StdMap.get "Polar")
           (printed_records [ev_hion_only; ev_dijet_plain]
                            (init always_open "eventdata.dat"))
  = [Some 7].
Proof.
  repeat split; try reflexivity. discriminate.
Qed.

(** C2, amended.  [_toWrite] is one map kept for the whole run.  A vetoed
    event writes nothing to the file and leaves the header flag, the event
    counter and the standard output as they were; in the map it changes
    the heavy-ion fields only: Polar and JProdR take the values of the
    event when it carries the metadata, every other field keeps its
    value, and without metadata the whole state is unchanged. *)
Theorem C2_veto_keeps_all_but_heavy_ion (ev : Event) (s : State) :
  accepts ev = false ->
  _file (analyze ev s) = _file s /\
  _firstPrint (analyze ev s) = _firstPrint s /\
  _eventNumber (analyze ev s) = _eventNumber s /\
  cout (analyze ev s) = cout s /\
  _toWrite (analyze ev s) =
  match heavy_ion ev with
  | Some hion =>
      StdMap.set "JProdR" (eccentricity hion)
        (StdMap.set "Polar" (event_plane_angle hion) (_toWrite s))
  | None => _toWrite s
  end /\
  (forall k, k <> "Polar" -> k <> "JProdR" ->
             StdMap.get k (_toWrite (analyze ev s)) =
             StdMap.get k (_toWrite s)) /\
  (heavy_ion ev = None -> analyze ev s = s).
Proof.
  intro A. rewrite (analyze_veto ev s A).
  destruct (read_heavy_ion_frame ev s) as (Hf & _ & Hn & Hp & Hc).
  repeat split; auto.
  - unfold read_heavy_ion. now destruct (heavy_ion ev).
  - intros k H1 H2. unfold read_heavy_ion.
    destruct (heavy_ion ev); [|reflexivity]. simpl.
    rewrite !get_set_neq by congruence. reflexivity.
  - unfold read_heavy_ion. now intros ->.
Qed.

Lemma C2_veto_keeps_all_but_heavy_ion_witness :
  accepts ev_hion_only = false /\
  _file (analyze ev_hion_only (init always_open "eventdata.dat")) =
  _file (init always_open "eventdata.dat") /\
  _firstPrint (analyze ev_hion_only (init always_open "eventdata.dat")) =
  _firstPrint (init always_open "eventdata.dat") /\
  _eventNumber (analyze ev_hion_only (init always_open "eventdata.dat")) =
  _eventNumber (init always_open "eventdata.dat") /\
  cout (analyze ev_hion_only (init always_open "eventdata.dat")) =
  cout (init always_open "eventdata.dat") /\
  _toWrite (analyze ev_hion_only (init always_open "eventdata.dat")) =
  match heavy_ion ev_hion_only with
  | Some hion =>
      StdMap.set "JProdR" (eccentricity hion)
        (StdMap.set "Polar" (event_plane_angle hion)
                    (_toWrite (init always_open "eventdata.dat")))
  | None => _toWrite (init always_open "eventdata.dat")
  end /\
  (forall k, k <> "Polar" -> k <> "JProdR" ->
             StdMap.get k (_toWrite (analyze ev_hion_only
                                       (init always_open "eventdata.dat"))) =
             StdMap.get k (_toWrite (init always_open "eventdata.dat"))) /\
  (heavy_ion ev_hion_only = None ->
   analyze ev_hion_only (init always_open "eventdata.dat") =
   init always_open "eventdata.dat").
Proof.
  split; [reflexivity|].
  exact (C2_veto_keeps_all_but_heavy_ion ev_hion_only
           (init always_open "eventdata.dat") eq_refl).
Defined.

(** C4, as stated: for the two jets of the claim the value stored as Aj
    is (100 - 60)/(100 + 60), which is a quarter and not a fifth. *)
Lemma C4_Aj_counterexample :
  accepts ev_dijet_plain = true /\
  StdMap.get "Aj"
    (_toWrite (analyze ev_dijet_plain (init always_open "eventdata.dat")))
  = Some ((100 - 60) / (100 + 60)) /\
  ~ has_value
      (_toWrite (analyze ev_dijet_plain (init always_open "eventdata.dat")))
      "Aj" 0.2.
Proof.
  repeat split; try reflexivity.
  intros (v & Hv & Hq).
  change (Some ((100 - 60) / (100 + 60)) = Some v) in Hv.
  injection Hv as <-. vm_compute in Hq. discriminate Hq.
Qed.

(** C4, amended.  An event whose jets are a jet of 100 GeV at phi = 0 and
    a jet of 60 GeV at phi = PI, both within the pseudorapidity cut, is
    accepted whatever its metadata, its weights and the state before it;
    the record then holds Jet1_pT = 100, Jet2_pT = 60, Aj = 0.25,
    JetAngle = 180 and Jet1_Ang = 0, and it is the record printed. *)
Theorem C4_back_to_back_record (hion : option HeavyIon) (eta1 eta2 w : Q)
        (ws : list Q) (s : State) :
  Qabs eta1 < 2 -> Qabs eta2 < 2 ->
  let ev := mkEvent hion [mkJet 100 eta1 0; mkJet 60 eta2 PI] w ws in
  let m := _toWrite (analyze ev s) in
  accepts ev = true /\
  has_value m "Jet1_pT" 100 /\
  has_value m "Jet2_pT" 60 /\
  has_value m "Aj" 0.25 /\
  has_value m "JetAngle" 180 /\
  has_value m "Jet1_Ang" 0 /\
  printed_records [ev] s = [m].
Proof.
  intros H1 H2 ev m.
  assert (C1 : cuts (mkJet 100 eta1 0) = true).
  { apply cuts_spec. split; [exact H1|reflexivity]. }
  assert (C2 : cuts (mkJet 60 eta2 PI) = true).
  { apply cuts_spec. split; [exact H2|reflexivity]. }
  assert (E : select_dijet (jetsByPt cuts (jets ev)) =
              Some (mkJet 100 eta1 0, mkJet 60 eta2 PI)).
  { unfold ev, jetsByPt. cbn [jets filter]. rewrite C1, C2. reflexivity. }
  assert (A : accepts ev = true) by (unfold accepts; now rewrite E).
  assert (Hm : m = _toWrite
                     (store "Weight" (weight0 ev)
                        (store_dijet (mkJet 100 eta1 0) (mkJet 60 eta2 PI)
                                     (read_heavy_ion ev s)))).
  { unfold m. now rewrite (analyze_accept ev s _ _ E), write_in_file_toWrite. }
  repeat split.
  - exact A.
  - exists 100. split; [|reflexivity]. rewrite Hm. simpl.
    rewrite !get_set_neq by discriminate. apply get_set_eq.
  - exists 60. split; [|reflexivity]. rewrite Hm. simpl.
    rewrite !get_set_neq by discriminate. apply get_set_eq.
  - exists ((100 - 60) / (100 + 60)). split; [|reflexivity]. rewrite Hm.
    simpl. rewrite !get_set_neq by discriminate. apply get_set_eq.
  - exists (Qabs (0 - PI) * 180 / PI). split; [|reflexivity]. rewrite Hm.
    simpl. rewrite !get_set_neq by discriminate. apply get_set_eq.
  - exists 0. split; [|reflexivity]. rewrite Hm. simpl.
    rewrite !get_set_neq by discriminate. apply get_set_eq.
  - simpl. fold ev. rewrite A. reflexivity.
Qed.

Lemma C4_back_to_back_record_witness :
  Qabs 0 < 2 /\ Qabs 0 < 2 /\
  let ev := mkEvent None [mkJet 100 0 0; mkJet 60 0 PI] 1 [] in
  let m := _toWrite (analyze ev (init always_open "eventdata.dat")) in
  accepts ev = true /\
  has_value m "Jet1_pT" 100 /\
  has_value m "Jet2_pT" 60 /\
  has_value m "Aj" 0.25 /\
  has_value m "JetAngle" 180 /\
  has_value m "Jet1_Ang" 0 /\
  printed_records [ev] (init always_open "eventdata.dat") = [m].
Proof.
  split; [reflexivity|]. split; [reflexivity|].
  exact (C4_back_to_back_record None 0 0 1 []
           (init always_open "eventdata.dat") eq_refl eq_refl).
Defined.

(** * Further properties of the analysis *)

(** ** What an event leaves in the record *)

Section RecordFacts.

Lemma toWrite_store (k : string) (v : Q) (s : State) :
  _toWrite (store k v s) = StdMap.set k v (_toWrite s).
Proof. reflexivity. Qed.

Lemma toWrite_store_dijet (j1 j2 : Jet) (s : State) :
  _toWrite (store_dijet j1 j2 s) =
  StdMap.set "Aj" ((pT j1 - pT j2) / (pT j1 + pT j2))
    (StdMap.set "Jet1_Ang" (phi j1)
       (StdMap.set "JetAngle" (Qabs (phi j1 - phi j2) * 180 / PI)
          (StdMap.set "Jet2_pT" (pT j2)
             (StdMap.set "Jet1_pT" (pT j1) (_toWrite s))))).
Proof. unfold store_dijet. cbv zeta. now rewrite !toWrite_store. Qed.

Lemma toWrite_read_heavy_ion (ev : Event) (s : State) :
  _toWrite (read_heavy_ion ev s) =
  match heavy_ion ev with
  | Some hion =>
      StdMap.set "JProdR" (eccentricity hion)
        (StdMap.set "Polar" (event_plane_angle hion) (_toWrite s))
  | None => _toWrite s
  end.
Proof.
  unfold read_heavy_ion. destruct (heavy_ion ev); [|reflexivity].
  now rewrite !toWrite_store.
Qed.

(** The record after an accepted event. *)
Lemma toWrite_accept (ev : Event) (s : State) (j1 j2 : Jet) :
  select_dijet (jetsByPt cuts (jets ev)) = Some (j1, j2) ->
  _toWrite (analyze ev s) =
  StdMap.set "Weight" (weight0 ev)
    (StdMap.set "Aj" ((pT j1 - pT j2) / (pT j1 + pT j2))
       (StdMap.set "Jet1_Ang" (phi j1)
          (StdMap.set "JetAngle" (Qabs (phi j1 - phi j2) * 180 / PI)
             (StdMap.set "Jet2_pT" (pT j2)
                (StdMap.set "Jet1_pT" (pT j1)
                   (_toWrite (read_heavy_ion ev s))))))).
Proof.
  intro E. rewrite (analyze_accept ev s j1 j2 E), write_in_file_toWrite.
  now rewrite toWrite_store, toWrite_store_dijet.
Qed.

End RecordFacts.

(** X1.  After an accepted event the six jet fields and the weight of the
    record are those of this event, whatever the record held before. *)
Theorem accepted_event_overwrites_fields (ev : Event) (s : State)
        (j1 j2 : Jet) :
  select_dijet (jetsByPt cuts (jets ev)) = Some (j1, j2) ->
  StdMap.get "Jet1_pT" (_toWrite (analyze ev s)) = Some (pT j1) /\
  StdMap.get "Jet2_pT" (_toWrite (analyze ev s)) = Some (pT j2) /\
  StdMap.get "JetAngle" (_toWrite (analyze ev s)) =
  Some (Qabs (phi j1 - phi j2) * 180 / PI) /\
  StdMap.get "Jet1_Ang" (_toWrite (analyze ev s)) = Some (phi j1) /\
  StdMap.get "Aj" (_toWrite (analyze ev s)) =
  Some ((pT j1 - pT j2) / (pT j1 + pT j2)) /\
  StdMap.get "Weight" (_toWrite (analyze ev s)) = Some (weight0 ev).
Proof.
  intro E. rewrite (toWrite_accept ev s j1 j2 E).
  repeat split;
    rewrite ?get_set_neq by discriminate; apply get_set_eq.
Qed.

Lemma accepted_event_overwrites_fields_witness :
  select_dijet (jetsByPt cuts (jets ev_wide)) =
  Some (mkJet 90 1 0.1, mkJet 30 (-1) 3.5) /\
  StdMap.get "Weight"
    (_toWrite (analyze ev_wide (analyze ev_dijet
                                  (init always_open "eventdata.dat"))))
  = Some 2.
Proof.
  assert (H : select_dijet (jetsByPt cuts (jets ev_wide)) =
              Some (mkJet 90 1 0.1, mkJet 30 (-1) 3.5)) by reflexivity.
  split; [exact H|].
  exact (proj2 (proj2 (proj2 (proj2 (proj2
           (accepted_event_overwrites_fields ev_wide
              (analyze ev_dijet (init always_open "eventdata.dat"))
              _ _ H)))))).
Defined.

(** X2.  The two heavy-ion fields after any event, accepted or vetoed:
    with metadata they hold the event-plane angle and the eccentricity of
    this event; without metadata they are what they were before the event
    (absent when they were absent). *)
Theorem heavy_ion_fields_after_event (ev : Event) (s : State) :
  StdMap.get "Polar" (_toWrite (analyze ev s)) =
  match heavy_ion ev with
  | Some hion => Some (event_plane_angle hion)
  | None => StdMap.get "Polar" (_toWrite s)
  end /\
  StdMap.get "JProdR" (_toWrite (analyze ev s)) =
  match heavy_ion ev with
  | Some hion => Some (eccentricity hion)
  | None => StdMap.get "JProdR" (_toWrite s)
  end.
Proof.
  assert (R : StdMap.get "Polar" (_toWrite (read_heavy_ion ev s)) =
              match heavy_ion ev with
              | Some hion => Some (event_plane_angle hion)
              | None => StdMap.get "Polar" (_toWrite s)
              end /\
              StdMap.get "JProdR" (_toWrite (read_heavy_ion ev s)) =
              match heavy_ion ev with
              | Some hion => Some (eccentricity hion)
              | None => StdMap.get "JProdR" (_toWrite s)
              end).
  { rewrite toWrite_read_heavy_ion.
    destruct (heavy_ion ev) as [h|]; [|auto]. split.
    - rewrite get_set_neq by discriminate. apply get_set_eq.
    - apply get_set_eq. }
  destruct (accepts ev) eqn:A.
  - destruct (accepts_select ev A) as (j1 & j2 & E).
    rewrite (toWrite_accept ev s j1 j2 E).
    rewrite !get_set_neq by discriminate. exact R.
  - rewrite (analyze_veto ev s A). exact R.
Qed.

Section RecordShape.

Lemma keys_ok_reachable (can_open : string -> bool) (typed : string)
      (events : list Event) :
  keys_ok (StdMap.keys (_toWrite (analyze_all events (init can_open typed)))).
Proof. apply keys_ok_analyze_all, keys_ok_init. Qed.

(** Reading the entries of a map off its sequence of keys. *)
Ltac entries_of m H :=
  repeat (let k := fresh "k" in
          let v := fresh "v" in
          destruct m as [|[k v] m]; [try discriminate H|];
          try discriminate H;
          cbn [StdMap.keys List.map fst] in H;
          try (injection H as -> H));
  try discriminate H.

Lemma record_with_metadata (m : StdMap.t) (a e p1 p2 ang an aj w : Q) :
  keys_ok (StdMap.keys m) ->
  StdMap.set "Weight" w
    (StdMap.set "Aj" aj
       (StdMap.set "Jet1_Ang" an
          (StdMap.set "JetAngle" ang
             (StdMap.set "Jet2_pT" p2
                (StdMap.set "Jet1_pT" p1
                   (StdMap.set "JProdR" e (StdMap.set "Polar" a m))))))) =
  [("Aj", aj); ("JProdR", e); ("Jet1_Ang", an); ("Jet1_pT", p1);
   ("Jet2_pT", p2); ("JetAngle", ang); ("Polar", a); ("Weight", w)].
Proof.
  unfold keys_ok, FIELDS_HION, FIELDS_JETS, FIELDS_ALL.
  intros [H | [H | [H | H]]]; unfold StdMap.keys in H.
  - destruct m; [reflexivity|discriminate H].
  - entries_of m H. reflexivity.
  - entries_of m H. reflexivity.
  - entries_of m H. reflexivity.
Qed.

End RecordShape.

(** X3.  At any point of a run, an accepted event that carries heavy-ion
    metadata leaves exactly its own eight values in the record, in key
    order; nothing of the earlier events remains. *)
Theorem accepted_event_with_metadata_record
        (can_open : string -> bool) (typed : string) (before : list Event)
        (ev : Event) (hion : HeavyIon) (j1 j2 : Jet) :
  heavy_ion ev = Some hion ->
  select_dijet (jetsByPt cuts (jets ev)) = Some (j1, j2) ->
  _toWrite (analyze ev (analyze_all before (init can_open typed))) =
  [("Aj", (pT j1 - pT j2) / (pT j1 + pT j2));
   ("JProdR", eccentricity hion);
   ("Jet1_Ang", phi j1);
   ("Jet1_pT", pT j1);
   ("Jet2_pT", pT j2);
   ("JetAngle", Qabs (phi j1 - phi j2) * 180 / PI);
   ("Polar", event_plane_angle hion);
   ("Weight", weight0 ev)].
Proof.
  intros Hh E.
  rewrite (toWrite_accept ev _ j1 j2 E), toWrite_read_heavy_ion, Hh.
  apply record_with_metadata, keys_ok_reachable.
Qed.

Lemma accepted_event_with_metadata_record_witness :
  heavy_ion ev_wide = Some (mkHeavyIon 3 4) /\
  select_dijet (jetsByPt cuts (jets ev_wide)) =
  Some (mkJet 90 1 0.1, mkJet 30 (-1) 3.5) /\
  _toWrite (analyze ev_wide
              (analyze_all [ev_dijet_plain; ev_hion_only]
                           (init always_open "eventdata.dat"))) =
  [("Aj", (90 - 30) / (90 + 30));
   ("JProdR", 4);
   ("Jet1_Ang", 0.1);
   ("Jet1_pT", 90);
   ("Jet2_pT", 30);
   ("JetAngle", Qabs (0.1 - 3.5) * 180 / PI);
   ("Polar", 3);
   ("Weight", 2)].
Proof.
  split; [reflexivity|]. split; [reflexivity|].
  exact (accepted_event_with_metadata_record always_open "eventdata.dat"
           [ev_dijet_plain; ev_hion_only] ev_wide (mkHeavyIon 3 4)
           (mkJet 90 1 0.1) (mkJet 30 (-1) 3.5) eq_refl eq_refl).
Defined.

(** ** The selection *)

Section SelectionMore.

Lemma find_exists {A : Type} (f : A -> bool) (l : list A) (x : A) :
  In x l -> f x = true -> exists y, find f l = Some y.
Proof.
  induction l as [|a rest IH]; simpl; [intros []|].
  intros [->|Hin] Hx.
  - rewrite Hx. eauto.
  - destruct (f a); eauto.
Qed.

Lemma sorted_after (pre post : list Jet) (x : Jet) :
  StronglySorted pt_ge (pre ++ x :: post) -> Forall (pt_ge x) post.
Proof.
  induction pre as [|a pre IH]; simpl; intro H; inversion H; subst; auto.
Qed.

Lemma angle_window (p a : Q) :
  0 < p -> Qabs (a - p) < p / 8 ->
  157.5 * p < a * 180 /\ a * 180 < 202.5 * p.
Proof.
  intros Hp H. apply Qabs_Qlt_condition in H. destruct H as [H1 H2].
  assert (E : p / 8 == p * (1 # 8)) by (unfold Qdiv; reflexivity).
  rewrite E in H1, H2. split; lra.
Qed.

Lemma select_dijet_match (l : list Jet) (j1 j2 : Jet) :
  select_dijet l = Some (j1, j2) -> In j2 l /\ back_to_back j1 j2 = true.
Proof.
  intro E. destruct (select_dijet_front l j1 j2 E) as (j & rest & _ & _ & Hf).
  now apply find_some in Hf.
Qed.

End SelectionMore.

(** X4.  The angle stored as JetAngle for an accepted event lies strictly
    between 157.5 and 202.5 degrees; it is not folded back below 180. *)
Theorem jet_angle_bounds (ev : Event) (s : State) (j1 j2 : Jet) :
  select_dijet (jetsByPt cuts (jets ev)) = Some (j1, j2) ->
  exists a,
    StdMap.get "JetAngle" (_toWrite (analyze ev s)) = Some a /\
    157.5 < a /\ a < 202.5.
Proof.
  intro E.
  destruct (select_dijet_match _ j1 j2 E) as [_ Hb].
  exists (Qabs (phi j1 - phi j2) * 180 / PI). split.
  { rewrite (toWrite_accept ev s j1 j2 E).
    rewrite !get_set_neq by discriminate. apply get_set_eq. }
  unfold back_to_back in Hb. apply Qltb_lt in Hb.
  destruct (angle_window PI _ PI_pos Hb) as [Hlo Hhi].
  split.
  - apply Qlt_shift_div_l; [exact PI_pos|exact Hlo].
  - apply Qlt_shift_div_r; [exact PI_pos|exact Hhi].
Qed.

Lemma jet_angle_bounds_witness :
  select_dijet (jetsByPt cuts (jets ev_wide)) =
  Some (mkJet 90 1 0.1, mkJet 30 (-1) 3.5) /\
  exists a,
    StdMap.get "JetAngle"
      (_toWrite (analyze ev_wide (init always_open "eventdata.dat")))
    = Some a /\
    157.5 < a /\ a < 202.5.
Proof.
  assert (H : select_dijet (jetsByPt cuts (jets ev_wide)) =
              Some (mkJet 90 1 0.1, mkJet 30 (-1) 3.5)) by reflexivity.
  split; [exact H|].
  exact (jet_angle_bounds ev_wide (init always_open "eventdata.dat")
           _ _ H).
Defined.

(** ** The state and the file over a run *)

Section RunMore.

Lemma finalize_counters (s : State) :
  _eventNumber (finalize s) = _eventNumber s /\
  _firstPrint (finalize s) = _firstPrint s.
Proof. unfold finalize. now destruct (_open s). Qed.

Lemma analyze_all_firstPrint_flag (events : list Event) (s : State) :
  _firstPrint (analyze_all events s) =
  _firstPrint s && negb (existsb accepts events).
Proof.
  revert s. induction events as [|ev rest IH]; intro s.
  - simpl. now rewrite andb_true_r.
  - rewrite analyze_all_cons, IH, analyze_firstPrint. simpl.
    destruct (accepts ev); simpl; [now rewrite andb_false_r|reflexivity].
Qed.

Lemma printed_records_length (events : list Event) (s : State) :
  List.length (printed_records events s) =
  List.length (filter accepts events).
Proof.
  revert s. induction events as [|ev rest IH]; intro s; [reflexivity|].
  simpl. destruct (accepts ev); simpl; now rewrite IH.
Qed.

Lemma printed_records_app (pre post : list Event) (s : State) :
  printed_records (pre ++ post) s =
  printed_records pre s ++ printed_records post (analyze_all pre s).
Proof.
  revert s. induction pre as [|ev rest IH]; intro s; [reflexivity|].
  simpl. rewrite IH. now destruct (accepts ev).
Qed.

Lemma has_polar_analyze_all (events : list Event) (s : State) :
  keys_ok (StdMap.keys (_toWrite s)) ->
  has_polar (analyze_all events s) = existsb has_hion events || has_polar s.
Proof.
  revert s. induction events as [|ev rest IH]; intros s Hk; [reflexivity|].
  rewrite analyze_all_cons, IH by now apply keys_ok_analyze.
  rewrite (has_polar_analyze ev s Hk). simpl.
  destruct (has_hion ev), (existsb has_hion rest), (has_polar s);
    reflexivity.
Qed.

Lemma count_lines_app (a b : list token) :
  count_lines (a ++ b) = (count_lines a + count_lines b)%nat.
Proof. unfold count_lines. now rewrite filter_app, length_app. Qed.

Lemma count_lines_data_row (m : StdMap.t) : count_lines (data_row m) = 1%nat.
Proof.
  unfold data_row. rewrite count_lines_app.
  assert (H : count_lines
                (flat_map (fun it => [ONum (snd it); OStr TAB]) m) = 0%nat).
  { induction m as [|[k v] rest IH]; [reflexivity|exact IH]. }
  rewrite H. reflexivity.
Qed.

Lemma count_lines_rows (ms : list StdMap.t) :
  count_lines (List.concat (List.map data_row ms)) = List.length ms.
Proof.
  induction ms as [|m rest IH]; [reflexivity|].
  simpl. now rewrite count_lines_app, count_lines_data_row, IH.
Qed.

Lemma header_row_keys (m1 m2 : StdMap.t) :
  StdMap.keys m1 = StdMap.keys m2 -> header_row m1 = header_row m2.
Proof.
  unfold header_row, StdMap.keys. intro H. f_equal.
  revert m2 H. induction m1 as [|a r1 IH]; intros [|b r2] H;
    try discriminate H; [reflexivity|].
  simpl in H. injection H as Hk Hr. simpl. rewrite Hk. f_equal. f_equal.
  now apply IH.
Qed.

Lemma count_lines_header_row (m : StdMap.t) :
  StdMap.keys m = FIELDS_JETS \/ StdMap.keys m = FIELDS_ALL ->
  count_lines (header_row m) = 1%nat.
Proof.
  intros [H | H].
  - rewrite (header_row_keys m (List.map (fun k => (k, 0)) FIELDS_JETS) H).
    reflexivity.
  - rewrite (header_row_keys m (List.map (fun k => (k, 0)) FIELDS_ALL) H).
    reflexivity.
Qed.

Lemma printed_keys_cases (events : list Event) (seen : bool) :
  Forall (fun ks => ks = FIELDS_JETS \/ ks = FIELDS_ALL)
         (printed_keys events seen).
Proof.
  revert seen. induction events as [|ev rest IH]; intro seen; simpl.
  - constructor.
  - destruct (accepts ev); [|apply IH].
    constructor; [|apply IH]. destruct (has_hion ev || seen); auto.
Qed.

Lemma printed_keys_all (events : list Event) :
  Forall (fun ks => ks = FIELDS_ALL) (printed_keys events true).
Proof.
  induction events as [|ev rest IH]; simpl; [constructor|].
  rewrite orb_true_r. destruct (accepts ev); [constructor|]; auto.
Qed.

Lemma printed_keys_metadata (events : list Event) (seen : bool) :
  forallb has_hion events = true ->
  Forall (fun ks => ks = FIELDS_ALL) (printed_keys events seen).
Proof.
  destruct events as [|ev rest]; simpl; [constructor|].
  intro H. apply andb_true_iff in H. destruct H as [-> _]. simpl.
  destruct (accepts ev); [constructor; [reflexivity|]|];
    apply printed_keys_all.
Qed.

End RunMore.

(** X7.  In a run with fewer than 2^31 accepted events, the event counter
    ends at the number of accepted events; the header flag is still set
    exactly when no event was accepted.  Both hold whether or not the file
    could be opened. *)
Theorem counters_after_run (can_open : string -> bool) (typed : string)
        (events : list Event) :
  (Z.of_nat (List.length (filter accepts events)) < 2147483648)%Z ->
  _eventNumber (run can_open typed events) =
  Z.of_nat (List.length (filter accepts events)) /\
  _firstPrint (run can_open typed events) = negb (existsb accepts events).
Proof.
  intro Hb. unfold run.
  destruct (finalize_counters (analyze_all events (init can_open typed)))
    as (-> & ->).
  rewrite analyze_all_firstPrint_flag.
  assert (H0 : _eventNumber (init can_open typed) = 0%Z /\
               _firstPrint (init can_open typed) = true).
  { unfold init. destruct (can_open (file_name typed)); auto. }
  destruct H0 as [H0 H1].
  rewrite analyze_all_eventNumber; rewrite H0; [|lia|lia].
  rewrite H1. auto.
Qed.

Lemma counters_after_run_witness :
  (Z.of_nat (List.length (filter accepts [ev_single; ev_dijet; ev_wide]))
   < 2147483648)%Z /\
  _eventNumber (run never_open "eventdata.dat"
                    [ev_single; ev_dijet; ev_wide]) =
  Z.of_nat (List.length (filter accepts [ev_single; ev_dijet; ev_wide])) /\
  _firstPrint (run never_open "eventdata.dat"
                   [ev_single; ev_dijet; ev_wide]) =
  negb (existsb accepts [ev_single; ev_dijet; ev_wide]).
Proof.
  assert (H : (Z.of_nat
                 (List.length (filter accepts [ev_single; ev_dijet; ev_wide]))
               < 2147483648)%Z) by (vm_compute; reflexivity).
  split; [exact H|].
  exact (counters_after_run never_open "eventdata.dat"
           [ev_single; ev_dijet; ev_wide] H).
Defined.

(** X8.  The file of a run has no line when the file could not be opened
    or no event was accepted, and otherwise one line more than there are
    accepted events. *)
Theorem lines_after_run (can_open : string -> bool) (typed : string)
        (events : list Event) :
  count_lines (content (_file (run can_open typed events))) =
  if can_open (file_name typed) then
    match List.length (filter accepts events) with
    | O => O
    | S n => S (S n)
    end
  else O.
Proof.
  unfold run. rewrite finalize_content.
  destruct (can_open (file_name typed)) eqn:O.
  - rewrite analyze_all_content by (rewrite (init_opened _ _ O); reflexivity).
    rewrite (init_opened _ _ O). cbn [_file content _firstPrint app].
    rewrite <- (init_opened _ _ O).
    rewrite <- (printed_records_length events (init can_open typed)).
    pose proof (printed_keys_spec events (init can_open typed)
                  (keys_ok_init can_open typed)) as Hk.
    pose proof (printed_keys_cases events
                  (has_polar (init can_open typed))) as Hc.
    rewrite <- Hk in Hc.
    destruct (printed_records events (init can_open typed)) as [|m0 ms];
      [reflexivity|].
    inversion Hc as [|? ? H0 _]; subst.
    unfold table. rewrite count_lines_app, count_lines_rows.
    rewrite (count_lines_header_row m0 H0). reflexivity.
  - rewrite analyze_all_closed by (rewrite (init_failed _ _ O); reflexivity).
    rewrite (init_failed _ _ O). reflexivity.
Qed.

(** X9.  When every event of a run carries heavy-ion metadata, every
    record printed has the eight columns, so that the rows line up with
    the header. *)
Theorem metadata_on_all_events_aligns (can_open : string -> bool)
        (typed : string) (events : list Event) :
  forallb has_hion events = true ->
  Forall (fun m => StdMap.keys m = FIELDS_ALL)
         (printed_records events (init can_open typed)).
Proof.
  intro H.
  pose proof (printed_keys_metadata events
                (has_polar (init can_open typed)) H) as Hall.
  rewrite <- (printed_keys_spec events _ (keys_ok_init can_open typed))
    in Hall.
  rewrite Forall_map in Hall. exact Hall.
Qed.

Lemma metadata_on_all_events_aligns_witness :
  forallb has_hion [ev_hion_only; ev_dijet; ev_wide] = true /\
  Forall (fun m => StdMap.keys m = FIELDS_ALL)
         (printed_records [ev_hion_only; ev_dijet; ev_wide]
                          (init always_open "eventdata.dat")).
Proof.
  split; [reflexivity|].
  exact (metadata_on_all_events_aligns always_open "eventdata.dat"
           [ev_hion_only; ev_dijet; ev_wide] eq_refl).
Defined.

(** X10.  The header is never widened.  When the first accepted event
    [e1] comes before any heavy-ion metadata, the row of names has the six
    jet columns; an event [e2] accepted later with metadata still gets a
    row of eight values under it, and what follows the header holds rows
    of values only. *)
Theorem header_not_widened (can_open : string -> bool) (typed : string)
        (pre mid post : list Event) (e1 e2 : Event) :
  can_open (file_name typed) = true ->
  forallb (fun e => negb (accepts e)) pre = true ->
  forallb (fun e => negb (has_hion e)) (pre ++ [e1]) = true ->
  accepts e1 = true ->
  accepts e2 = true ->
  has_hion e2 = true ->
  let s1 := analyze e1 (analyze_all pre (init can_open typed)) in
  let s2 := analyze e2 (analyze_all mid s1) in
  StdMap.keys (_toWrite s1) = FIELDS_JETS /\
  StdMap.keys (_toWrite s2) = FIELDS_ALL /\
  exists rows_before rows_after,
    content (_file (run can_open typed (pre ++ e1 :: mid ++ e2 :: post))) =
    header_row (_toWrite s1) ++ rows_before
    ++ data_row (_toWrite s2) ++ rows_after /\
    Forall value_token rows_before /\
    Forall value_token rows_after.
Proof.
  intros Hopen Hpre Hno A1 A2 H2 s1 s2.
  pose proof (init_opened can_open typed Hopen) as Hi.
  assert (Ho : is_open (_file (init can_open typed)) = true)
    by now rewrite Hi.
  assert (Hnone : existsb has_hion (pre ++ [e1]) = false).
  { clear - Hno. induction (pre ++ [e1]) as [|e l IH]; [reflexivity|].
    simpl in *. apply andb_true_iff in Hno. destruct Hno as [Ha Hb].
    apply negb_true_iff in Ha. rewrite Ha. now apply IH. }
  rewrite existsb_app in Hnone. apply orb_false_iff in Hnone.
  destruct Hnone as [Hn1 Hn2]. simpl in Hn2. rewrite orb_false_r in Hn2.
  destruct (accepts_select e1 A1) as (a1 & b1 & E1).
  destruct (accepts_select e2 A2) as (a2 & b2 & E2).
  assert (K1 : StdMap.keys (_toWrite s1) = FIELDS_JETS).
  { unfold s1.
    rewrite (keys_accept e1 _ a1 b1 (keys_ok_reachable _ _ _) E1).
    rewrite has_polar_analyze_all by apply keys_ok_init.
    rewrite Hn1, Hn2, Hi. reflexivity. }
  assert (K2 : StdMap.keys (_toWrite s2) = FIELDS_ALL).
  { unfold s2.
    assert (Hk : keys_ok (StdMap.keys (_toWrite (analyze_all mid s1)))).
    { apply keys_ok_analyze_all. unfold s1.
      apply keys_ok_analyze, keys_ok_reachable. }
    rewrite (keys_accept e2 _ a2 b2 Hk E2), H2. reflexivity. }
  split; [exact K1|]. split; [exact K2|].
  exists (data_row (_toWrite s1)
          ++ List.concat (List.map data_row (printed_records mid s1))),
         (List.concat (List.map data_row (printed_records post s2))).
  repeat split.
  - unfold run. rewrite finalize_content, (analyze_all_content _ _ Ho).
    rewrite (printed_records_veto pre _ _ Hpre). simpl printed_records.
    rewrite A1. fold s1. rewrite printed_records_app. simpl printed_records.
    rewrite A2. fold s2. rewrite Hi. cbn [_file content _firstPrint table app].
    rewrite map_cons, concat_cons, map_app, concat_app, map_cons, concat_cons.
    rewrite <- !app_assoc. reflexivity.
  - apply Forall_app. split; [apply data_row_values|apply rows_values].
  - apply rows_values.
Qed.

Lemma header_not_widened_witness :
  let s1 :=
    analyze ev_dijet_plain
            (analyze_all [ev_single] (init always_open "eventdata.dat")) in
  let s2 := analyze ev_dijet (analyze_all [ev_soft] s1) in
  StdMap.keys (_toWrite s1) = FIELDS_JETS /\
  StdMap.keys (_toWrite s2) = FIELDS_ALL /\
  exists rows_before rows_after,
    content (_file (run always_open "eventdata.dat"
                        ([ev_single] ++ ev_dijet_plain
                           :: [ev_soft] ++ ev_dijet :: [ev_wide]))) =
    header_row (_toWrite s1) ++ rows_before
    ++ data_row (_toWrite s2) ++ rows_after /\
    Forall value_token rows_before /\
    Forall value_token rows_after.
Proof.
  exact (header_not_widened always_open "eventdata.dat" [ev_single]
           [ev_soft] [ev_wide] ev_dijet_plain ev_dijet
           eq_refl eq_refl eq_refl eq_refl eq_refl eq_refl).
Defined.

(** X11.  The standard output of a whole run: the prompt of [init], then
    the warning when the file could not be opened and the closing message
    when it could.  [analyze] prints nothing, for any events. *)
Theorem standard_output_of_run (can_open : string -> bool) (typed : string)
        (events : list Event) :
  cout (run can_open typed events) =
  [NL; NL; "Out file name: "; NL]
  ++ (if can_open (file_name typed)
      then ["Everything written to file."; NL]
      else [WARNING; NL]).
Proof.
  unfold run, finalize.
  destruct (analyze_all_open_cout events (init can_open typed)) as (Ho & Hc).
  rewrite Ho. unfold init in *.
  destruct (can_open (file_name typed)); cbn [_open cout] in *;
    cbn [_open cout]; rewrite Hc; reflexivity.
Qed.

(** X12.  The default file name is out of reach: a word read by
    [std::cin >> name] holds no newline, so it is never the [e] followed
    by a newline that [init] compares it with, and the file opened is the
    word as typed. *)
Theorem default_name_unreachable (typed : string) :
  no_newline typed -> file_name typed = typed.
Proof.
  unfold no_newline, file_name. intro H.
  destruct (String.eqb_spec typed ("e" ++ NL)); [|reflexivity].
  subst typed. exfalso. apply H. simpl. right. left. reflexivity.
Qed.

Lemma default_name_unreachable_witness :
  no_newline "e" /\ file_name "e" = "e".
Proof.
  assert (H : no_newline "e").
  { unfold no_newline. simpl. intros [H | []]. discriminate H. }
  split; [exact H|].
  exact (default_name_unreachable "e" H).
Defined.

(** X13.  While the events are processed the flag [_open] agrees with the
    stream: both are the outcome of the [open] in [init].  After
    [finalize] the stream is closed and holds what was written. *)
Theorem open_flag_and_stream (can_open : string -> bool) (typed : string)
        (events : list Event) :
  _open (analyze_all events (init can_open typed)) =
  can_open (file_name typed) /\
  is_open (_file (analyze_all events (init can_open typed))) =
  can_open (file_name typed) /\
  is_open (_file (run can_open typed events)) = false /\
  content (_file (run can_open typed events)) =
  content (_file (analyze_all events (init can_open typed))).
Proof.
  destruct (analyze_all_open_cout events (init can_open typed)) as (Ho & _).
  pose proof (analyze_all_is_open events (init can_open typed)) as Hs.
  assert (Hi : _open (init can_open typed) = can_open (file_name typed) /\
               is_open (_file (init can_open typed)) =
               can_open (file_name typed)).
  { unfold init. destruct (can_open (file_name typed)); auto. }
  destruct Hi as [Hi1 Hi2]. rewrite Hi1 in Ho. rewrite Hi2 in Hs.
  repeat split; auto.
  - unfold run, finalize. rewrite Ho.
    destruct (can_open (file_name typed)); [reflexivity|exact Hs].
  - unfold run. apply finalize_content.
Qed.

(** X14.  The file only grows: what is in the file after some events is
    still there, at the start of the file, after more events, from any
    state. *)
Theorem file_is_append_only (pre post : list Event) (s : State) :
  exists suffix,
    content (_file (analyze_all (pre ++ post) s)) =
    content (_file (analyze_all pre s)) ++ suffix.
Proof.
  rewrite analyze_all_app. generalize (analyze_all pre s). clear.
  induction post as [|ev rest IH]; intro s.
  - exists []. simpl. now rewrite app_nil_r.
  - rewrite analyze_all_cons. destruct (IH (analyze ev s)) as (suf & ->).
    rewrite analyze_content.
    destruct (accepts ev && is_open (_file s)).
    + eexists. rewrite <- !app_assoc. reflexivity.
    + now exists suf.
Qed.

(** * The selection in binary64 arithmetic *)

(** ** The order of the doubles *)

Section DoubleOrder.

Import Binary64.

Lemma lt_spec (x y : double) :
  lt x y = true <->
  x <> S754_nan /\ y <> S754_nan /\ key_lt (key x) (key y).
Proof.
  unfold lt, SFltb, key_lt.
  destruct x as [sx|sx| |sx mx ex], y as [sy|sy| |sy my ey];
    try destruct sx; try destruct sy; cbn [SFcompare key];
    try (split; [discriminate|intros (Hx & Hy & H); try congruence; lia]);
    try (split; [intros _; repeat split; try discriminate; lia
                |reflexivity]).
  - change (Pos.compare_cont Eq mx my) with (Pos.compare mx my).
    destruct (Z.compare_spec ex ey), (Pos.compare_spec mx my);
      cbn [CompOpp];
      (split; [try discriminate; intros _; repeat split;
               try discriminate; lia
              |intros (_ & _ & K); try reflexivity; lia]).
  - change (Pos.compare_cont Eq mx my) with (Pos.compare mx my).
    destruct (Z.compare_spec ex ey), (Pos.compare_spec mx my);
      (split; [try discriminate; intros _; repeat split;
               try discriminate; lia
              |intros (_ & _ & K); try reflexivity; lia]).
Qed.

Lemma le_spec (x y : double) :
  le x y = true <->
  x <> S754_nan /\ y <> S754_nan /\ key_le (key x) (key y).
Proof.
  unfold le, SFleb, key_le.
  destruct x as [sx|sx| |sx mx ex], y as [sy|sy| |sy my ey];
    try destruct sx; try destruct sy; cbn [SFcompare key];
    try (split; [discriminate|intros (Hx & Hy & H); try congruence; lia]);
    try (split; [intros _; repeat split; try discriminate; lia
                |reflexivity]).
  - change (Pos.compare_cont Eq mx my) with (Pos.compare mx my).
    destruct (Z.compare_spec ex ey), (Pos.compare_spec mx my);
      cbn [CompOpp];
      (split; [try discriminate; intros _; repeat split;
               try discriminate; lia
              |intros (_ & _ & K); try reflexivity; lia]).
  - change (Pos.compare_cont Eq mx my) with (Pos.compare mx my).
    destruct (Z.compare_spec ex ey), (Pos.compare_spec mx my);
      (split; [try discriminate; intros _; repeat split;
               try discriminate; lia
              |intros (_ & _ & K); try reflexivity; lia]).
Qed.

Ltac keys x y :=
  destruct (key x) as [[? ?] ?], (key y) as [[? ?] ?];
  unfold key_lt, key_le in *.

Lemma le_trans (x y z : double) :
  le x y = true -> le y z = true -> le x z = true.
Proof.
  rewrite !le_spec. intros (Hx & Hy & H1) (_ & Hz & H2).
  repeat split; auto.
  destruct (key x) as [[? ?] ?], (key y) as [[? ?] ?],
           (key z) as [[? ?] ?].
  unfold key_le in *. lia.
Qed.

Lemma le_lt_trans (x y z : double) :
  le x y = true -> lt y z = true -> lt x z = true.
Proof.
  rewrite le_spec, !lt_spec. intros (Hx & Hy & H1) (_ & Hz & H2).
  repeat split; auto.
  destruct (key x) as [[? ?] ?], (key y) as [[? ?] ?],
           (key z) as [[? ?] ?].
  unfold key_le, key_lt in *. lia.
Qed.

Lemma le_false_ge (x y : double) :
  x <> S754_nan -> y <> S754_nan -> le x y = false -> le y x = true.
Proof.
  intros Hx Hy H. apply le_spec. repeat split; auto.
  apply not_true_iff_false in H.
  assert (K : ~ key_le (key x) (key y))
    by (intro K; apply H, le_spec; auto).
  keys x y. lia.
Qed.


Lemma le_lt_false (x y : double) : le x y = true -> lt y x = false.
Proof.
  rewrite le_spec. intros (Hx & Hy & H). apply not_true_iff_false.
  rewrite lt_spec. intros (_ & _ & K). keys x y. lia.
Qed.

Lemma lt_not_nan (x y : double) :
  lt x y = true -> x <> S754_nan /\ y <> S754_nan.
Proof. rewrite lt_spec. tauto. Qed.

Lemma le_refl (x : double) : x <> S754_nan -> le x x = true.
Proof.
  intro H. apply le_spec. repeat split; auto.
  destruct (key x) as [[? ?] ?]. unfold key_le. lia.
Qed.

End DoubleOrder.

(** ** The jets returned by [jetsByPt] *)

Section JetsByPt64.

Import Binary64.

Lemma insert_by_pt_perm64 (j : Jet) (l : list Jet) :
  Permutation (j :: l) (insert_by_pt j l).
Proof.
  induction l as [|h t IH]; simpl.
  - apply Permutation_refl.
  - destruct (le (pT h) (pT j)).
    + apply Permutation_refl.
    + eapply perm_trans; [apply perm_swap|]. apply perm_skip, IH.
Qed.

Lemma sort_by_pt_perm64 (l : list Jet) : Permutation l (sort_by_pt l).
Proof.
  induction l as [|h t IH]; simpl.
  - apply perm_nil.
  - eapply perm_trans; [apply perm_skip, IH|]. apply insert_by_pt_perm64.
Qed.

Lemma insert_by_pt_sorted64 (j : Jet) (l : list Jet) :
  pT j <> S754_nan -> Forall (fun x => pT x <> S754_nan) l ->
  StronglySorted pt_ge l -> StronglySorted pt_ge (insert_by_pt j l).
Proof.
  intros Hj Hl Hs. induction Hs as [|h t Hs IH Hh]; simpl.
  - repeat constructor.
  - inversion Hl as [|? ? Hnh Hnt]; subst.
    destruct (le (pT h) (pT j)) eqn:E.
    + constructor; [constructor; assumption|].
      constructor; [exact E|].
      rewrite Forall_forall in Hh |- *. intros x Hx.
      unfold pt_ge in *. apply le_trans with (pT h); auto.
    + constructor; [apply IH, Hnt|].
      rewrite Forall_forall in Hh |- *. intros x Hx.
      apply (Permutation_in _ (Permutation_sym (insert_by_pt_perm64 j t)))
        in Hx.
      destruct Hx as [<-|Hx]; [|auto].
      unfold pt_ge. now apply le_false_ge.
Qed.

Lemma sort_by_pt_sorted64 (l : list Jet) :
  Forall (fun x => pT x <> S754_nan) l -> StronglySorted pt_ge (sort_by_pt l).
Proof.
  induction 1 as [|h t Hh Ht IH]; simpl.
  - constructor.
  - apply insert_by_pt_sorted64; auto.
    rewrite Forall_forall in Ht |- *. intros x Hx. apply Ht.
    apply (Permutation_in _ (Permutation_sym (sort_by_pt_perm64 t))), Hx.
Qed.

Lemma cuts_not_nan (j : Jet) : cuts j = true -> pT j <> S754_nan.
Proof.
  unfold cuts. intro H. apply andb_true_iff in H. destruct H as [_ H].
  now apply lt_not_nan in H.
Qed.

Lemma jetsByPt_In64 (js : list Jet) (j : Jet) :
  In j (jetsByPt cuts js) <-> In j js /\ cuts j = true.
Proof.
  rewrite <- filter_In. unfold jetsByPt. split; apply Permutation_in.
  - apply Permutation_sym, sort_by_pt_perm64.
  - apply sort_by_pt_perm64.
Qed.

Lemma jetsByPt_length64 (js : list Jet) :
  List.length (jetsByPt cuts js) = List.length (filter cuts js).
Proof. symmetry. apply Permutation_length, sort_by_pt_perm64. Qed.

Lemma jetsByPt_sorted64 (js : list Jet) :
  StronglySorted pt_ge (jetsByPt cuts js).
Proof.
  apply sort_by_pt_sorted64. rewrite Forall_forall. intros x Hx.
  apply filter_In in Hx. now apply cuts_not_nan.
Qed.

Lemma sorted_after_gen {A : Type} (R : A -> A -> Prop) (pre post : list A)
      (x : A) :
  StronglySorted R (pre ++ x :: post) -> Forall (R x) post.
Proof.
  induction pre as [|a pre IH]; simpl; intro H; inversion H; subst; auto.
Qed.

End JetsByPt64.

(** ** The angle test and the selection *)

Section Selection64.

Import Binary64.

(** A double minus itself is a zero or, for an infinity or NaN, NaN. *)
Lemma sub_self (x : double) :
  fabs (sub x x) = S754_zero false \/ fabs (sub x x) = S754_nan.
Proof.
  destruct x as [s|s| |s m e].
  - left. now destruct s.
  - right. now destruct s.
  - right. reflexivity.
  - left. unfold sub, SFsub. rewrite Z.sub_diag. reflexivity.
Qed.

(** No jet passes the angle test against itself. *)
Lemma back_to_back_self64 (j : Jet) : back_to_back j j = false.
Proof.
  unfold back_to_back. destruct (sub_self (phi j)) as [-> | ->];
    reflexivity.
Qed.

Lemma select_dijet_front64 (l : list Jet) (j1 j2 : Jet) :
  select_dijet l = Some (j1, j2) ->
  exists j rest,
    l = j1 :: j :: rest /\ lt (pT j1) (mul (of_int 80) GeV) = false /\
    find (back_to_back j1) l = Some j2.
Proof.
  unfold select_dijet. destruct l as [|a [|j rest]]; try discriminate.
  destruct (lt (pT a) (mul (of_int 80) GeV)) eqn:Hpt; [discriminate|].
  destruct (find (back_to_back a) (a :: j :: rest)) as [b|] eqn:Hf;
    [|discriminate].
  intro H. injection H as <- <-. eauto.
Qed.

End Selection64.

(** ** The exact values of finite doubles *)

Section ExactValues.

Import Binary64.










End ExactValues.

(** ** Rounding in binary64 *)

Section Rounding64.

Import Binary64.
Local Open Scope Z_scope.










































End Rounding64.

(** ** The claims on the selection, in binary64 *)

(** C9.  In an accepted event the list of jets in descending order of pT
    reads [j1 :: pre ++ j2 :: post]: [j1] is its first jet, [j2] is the
    first jet of the list for which the test of the loop,
    fabs(fabs(phi1 - phi) - PI) < PI/8 as the doubles compute it, holds,
    and the test fails for [j1] itself and for every jet of [pre].  The
    separation of [j1] from itself is 0 (NaN when its phi is infinite or
    NaN), which fails the test, so [j2] is never the leading jet. *)
Theorem C9_second_jet_is_first_match (js : list Binary64.Jet)
        (j1 j2 : Binary64.Jet) :
  Binary64.select_dijet (Binary64.jetsByPt Binary64.cuts js) = Some (j1, j2) ->
  exists pre post,
    Binary64.jetsByPt Binary64.cuts js = j1 :: pre ++ j2 :: post /\
    StronglySorted Binary64.pt_ge (Binary64.jetsByPt Binary64.cuts js) /\
    Forall (fun j =>
              Binary64.lt
                (Binary64.fabs
                   (Binary64.sub
                      (Binary64.fabs
                         (Binary64.sub (Binary64.phi j1) (Binary64.phi j)))
                      Binary64.PI))
                (Binary64.div Binary64.PI (Binary64.of_int 8)) = false)
           (j1 :: pre) /\
    Binary64.lt
      (Binary64.fabs
         (Binary64.sub
            (Binary64.fabs
               (Binary64.sub (Binary64.phi j1) (Binary64.phi j2)))
            Binary64.PI))
      (Binary64.div Binary64.PI (Binary64.of_int 8)) = true /\
    (Binary64.fabs (Binary64.sub (Binary64.phi j1) (Binary64.phi j1)) =
     S754_zero false \/
     Binary64.fabs (Binary64.sub (Binary64.phi j1) (Binary64.phi j1)) =
     S754_nan).
Proof.
  intro E.
  destruct (select_dijet_front64 _ j1 j2 E) as (j & rest & El & _ & Hf).
  destruct (find_split _ _ _ Hf) as (pre & post & Hl & Hpre & Hj2).
  rewrite El in Hl. destruct pre as [|a pre].
  - simpl in Hl. injection Hl as <- _.
    rewrite back_to_back_self64 in Hj2. discriminate.
  - simpl in Hl. injection Hl as <- Hl.
    exists pre, post. repeat split.
    + rewrite El. f_equal. exact Hl.
    + apply jetsByPt_sorted64.
    + exact Hpre.
    + exact Hj2.
    + apply sub_self.
Qed.

Lemma C9_second_jet_is_first_match_witness :
  Binary64.select_dijet
    (Binary64.jetsByPt Binary64.cuts
       [Binary64.jet_away; Binary64.jet_edge; Binary64.jet_lead]) =
  Some (Binary64.jet_lead, Binary64.jet_away) /\
  exists pre post,
    Binary64.jetsByPt Binary64.cuts
      [Binary64.jet_away; Binary64.jet_edge; Binary64.jet_lead] =
    Binary64.jet_lead :: pre ++ Binary64.jet_away :: post /\
    StronglySorted Binary64.pt_ge
      (Binary64.jetsByPt Binary64.cuts
         [Binary64.jet_away; Binary64.jet_edge; Binary64.jet_lead]) /\
    Forall (fun j => Binary64.back_to_back Binary64.jet_lead j = false)
           (Binary64.jet_lead :: pre) /\
    Binary64.back_to_back Binary64.jet_lead Binary64.jet_away = true /\
    (Binary64.fabs
       (Binary64.sub (Binary64.phi Binary64.jet_lead)
                     (Binary64.phi Binary64.jet_lead)) = S754_zero false \/
     Binary64.fabs
       (Binary64.sub (Binary64.phi Binary64.jet_lead)
                     (Binary64.phi Binary64.jet_lead)) = S754_nan).
Proof.
  assert (H : Binary64.select_dijet
                (Binary64.jetsByPt Binary64.cuts
                   [Binary64.jet_away; Binary64.jet_edge;
                    Binary64.jet_lead]) =
              Some (Binary64.jet_lead, Binary64.jet_away))
    by (vm_compute; reflexivity).
  split; [exact H|].
  exact (C9_second_jet_is_first_match _ _ _ H).
Defined.


Section AsymmetryBounds.

Import Binary64.



End AsymmetryBounds.



(** ** Further properties of the selection, in binary64 *)

(** X5.  The three vetoes are the only ones: when at least two jets pass
    the cut, the leading jet is not below 80 GeV and some jet passing the
    cut passes the angle test of the loop against the leading jet, the
    event is accepted, with the leading jet as first jet. *)
Theorem qualifying_event_is_accepted (js : list Binary64.Jet)
        (j1 j : Binary64.Jet) (rest : list Binary64.Jet) :
  (2 <= List.length (filter Binary64.cuts js))%nat ->
  Binary64.jetsByPt Binary64.cuts js = j1 :: rest ->
  Binary64.lt (Binary64.pT j1)
              (Binary64.mul (Binary64.of_int 80) Binary64.GeV) = false ->
  In j js -> Binary64.cuts j = true ->
  Binary64.lt
    (Binary64.fabs
       (Binary64.sub
          (Binary64.fabs (Binary64.sub (Binary64.phi j1) (Binary64.phi j)))
          Binary64.PI))
    (Binary64.div Binary64.PI (Binary64.of_int 8)) = true ->
  exists j2,
    Binary64.select_dijet (Binary64.jetsByPt Binary64.cuts js) =
    Some (j1, j2).
Proof.
  intros Hlen El Hpt Hin Hc Hang.
  assert (Hj : In j (Binary64.jetsByPt Binary64.cuts js))
    by (apply jetsByPt_In64; auto).
  rewrite <- jetsByPt_length64, El in Hlen. rewrite El in *.
  destruct rest as [|j' rest]; [simpl in Hlen; lia|].
  unfold Binary64.select_dijet. rewrite Hpt.
  destruct (find_exists (Binary64.back_to_back j1) _ _ Hj Hang) as (y & ->).
  now exists y.
Qed.

Lemma qualifying_event_is_accepted_witness :
  exists j2,
    Binary64.select_dijet
      (Binary64.jetsByPt Binary64.cuts
         [Binary64.jet_40; Binary64.jet_lead; Binary64.jet_edge]) =
    Some (Binary64.jet_lead, j2).
Proof.
  apply (qualifying_event_is_accepted
           [Binary64.jet_40; Binary64.jet_lead; Binary64.jet_edge]
           Binary64.jet_lead Binary64.jet_40
           [Binary64.jet_edge; Binary64.jet_40]).
  - vm_compute. lia.
  - vm_compute. reflexivity.
  - vm_compute. reflexivity.
  - left. reflexivity.
  - vm_compute. reflexivity.
  - vm_compute. reflexivity.
Defined.

(** X6.  The second jet is the hardest of the jets that pass the cut and
    the angle test of the loop against the leading jet: none of them has a
    larger pT. *)
Theorem second_jet_is_hardest_match (js : list Binary64.Jet)
        (j1 j2 j : Binary64.Jet) :
  Binary64.select_dijet (Binary64.jetsByPt Binary64.cuts js) = Some (j1, j2) ->
  In j js -> Binary64.cuts j = true ->
  Binary64.lt
    (Binary64.fabs
       (Binary64.sub
          (Binary64.fabs (Binary64.sub (Binary64.phi j1) (Binary64.phi j)))
          Binary64.PI))
    (Binary64.div Binary64.PI (Binary64.of_int 8)) = true ->
  Binary64.le (Binary64.pT j) (Binary64.pT j2) = true.
Proof.
  intros E Hin Hc Hang.
  destruct (select_dijet_front64 _ j1 j2 E) as (j' & rest & _ & _ & Hf).
  destruct (find_split _ _ _ Hf) as (pre & post & Hl & Hpre & _).
  assert (Hj : In j (Binary64.jetsByPt Binary64.cuts js))
    by (apply jetsByPt_In64; auto).
  pose proof (jetsByPt_sorted64 js) as Hs.
  rewrite Hl in Hj, Hs. apply in_app_or in Hj.
  destruct Hj as [Hj | [<- | Hj]].
  - rewrite Forall_forall in Hpre.
    pose proof (Hpre j Hj) as Hb. unfold Binary64.back_to_back in Hb.
    congruence.
  - apply le_refl. now apply cuts_not_nan.
  - apply sorted_after_gen in Hs. rewrite Forall_forall in Hs.
    exact (Hs j Hj).
Qed.

Lemma second_jet_is_hardest_match_witness :
  Binary64.select_dijet
    (Binary64.jetsByPt Binary64.cuts
       [Binary64.jet_40; Binary64.jet_edge; Binary64.jet_away;
        Binary64.jet_lead]) =
  Some (Binary64.jet_lead, Binary64.jet_away) /\
  Binary64.le (Binary64.pT Binary64.jet_40) (Binary64.pT Binary64.jet_away)
  = true.
Proof.
  assert (H : Binary64.select_dijet
                (Binary64.jetsByPt Binary64.cuts
                   [Binary64.jet_40; Binary64.jet_edge; Binary64.jet_away;
                    Binary64.jet_lead]) =
              Some (Binary64.jet_lead, Binary64.jet_away))
    by (vm_compute; reflexivity).
  split; [exact H|].
  apply (second_jet_is_hardest_match _ _ _ _ H).
  - left. reflexivity.
  - vm_compute. reflexivity.
  - vm_compute. reflexivity.
Defined.
